(** * bread: a single-line editor over a gap buffer

    Shallow embedding of [src/bread.c] and [src/bread.h].

    Conventions of the embedding.
    - A [char] is its 8-bit pattern, a [Z] in [0, 256).
    - The four pointers of [struct buffer] all point into one heap block (or
      one past it).  A pointer is the offset from the block's first byte, so
      [start] is 0 and [end_] is the size of the block.  [realloc] may move
      the block; offsets are what [buffer_insertch] recomputes.
    - Undefined behaviour (a [memmove] or a store outside the block) is the
      result [None].
    - The outcomes of the system and library calls ([malloc], [realloc],
      [read], [tcgetattr], [tcsetattr]) are scripted by the caller of the
      model; the bytes of a fresh allocation and of an unwritten local array
      are arbitrary and scripted too.
    - The writes to standard output ([printf], [fflush]) change neither the
      buffer nor the control flow: [bread_line] leaves them out, and with
      them the prompt, which only they use; [bread_line_stdout] gives
      them. *)

From stdpp Require Import base numbers list option.

Local Open Scope Z_scope.

(** ** C integer conversions *)

(** Conversion to [int] (32 bits, two's complement).  It stands for the
    conversion of a pointer difference that is assigned to [relpos], and for
    [++] and [--] on [relpos]; the overflow of the latter, undefined in C,
    wraps here, and no well-formed buffer reaches it. *)
Definition to_int (x : Z) : Z := (x + 2 ^ 31) mod 2 ^ 32 - 2 ^ 31.

(** Conversion to [size_t] (64 bits). *)
Definition to_size (x : Z) : Z := x mod 2 ^ 64.

(** Conversion of an [int] to [char]: the low eight bits. *)
Definition to_char (k : Z) : Z := k mod 256.

(** What the headers of the platform fix: the [termios.h] flag values and the
    signedness of plain [char]. *)
Record platform := {
  OPOST : Z;
  ECHO : Z;
  ICANON : Z;
  char_is_signed : bool;
}.

(** Linux on x86-64. *)
Definition linux : platform :=
  {| OPOST := 1; ECHO := 8; ICANON := 2; char_is_signed := true |}.

(** Promotion of a [char] (given by its bit pattern) to [int]. *)
Definition char_to_int (P : platform) (c : Z) : Z :=
  if char_is_signed P && (128 <=? c) then c - 256 else c.

(** ** Keys *)

Definition CTRL_KEY (k : Z) : Z := k - 96.

Definition KEY_LOWEST : Z := 256.
Definition KEY_NOKEY : Z := 257.
Definition KEY_UP : Z := 258.
Definition KEY_DOWN : Z := 259.
Definition KEY_RIGHT : Z := 260.
Definition KEY_LEFT : Z := 261.

Definition BREAD_INITIAL_SIZE : Z := 64.

(** ** The heap *)

(** Outcome of one [malloc] or [realloc]: failure, or a block whose fresh
    bytes are [junk i] at offset [i]. *)
Inductive alloc :=
  | NoMem
  | Mem (junk : nat → Z).

(** The outcomes of the allocations still to come, first call first.  Once
    the script is used up every allocation succeeds with zeroed bytes. *)
Definition heap := list alloc.

Definition next_alloc (h : heap) : alloc * heap :=
  match h with
  | [] => (Mem (λ _, 0), [])
  | a :: h' => (a, h')
  end.

(** The bytes of a block of [n] bytes that starts as [m]. *)
Definition resize (m : list Z) (n : nat) (junk : nat → Z) : list Z :=
  take n m ++ map junk (seq (length m) (n - length m)).

Definition malloc (h : heap) (n : Z) : option (list Z) * heap :=
  match next_alloc h with
  | (NoMem, h') => (None, h')
  | (Mem junk, h') => (Some (resize [] (Z.to_nat n) junk), h')
  end.

Definition realloc (h : heap) (m : list Z) (n : Z) : option (list Z) * heap :=
  match next_alloc h with
  | (NoMem, h') => (None, h')
  | (Mem junk, h') => (Some (resize m (Z.to_nat n) junk), h')
  end.

Definition len (m : list Z) : Z := Z.of_nat (length m).

(** [memmove(dst, src, n)] inside the block [m]. *)
Definition memmove (m : list Z) (dst src n : Z) : option (list Z) :=
  if bool_decide (0 ≤ n ∧ 0 ≤ src ∧ src + n ≤ len m ∧ 0 ≤ dst ∧ dst + n ≤ len m)
  then Some (take (Z.to_nat dst) m
             ++ take (Z.to_nat n) (drop (Z.to_nat src) m)
             ++ drop (Z.to_nat (dst + n)) m)
  else None.

(** ** The gap buffer *)

Record buffer := {
  mem : list Z;
  gap : Z;
  post : Z;
  end_ : Z;
  relpos : Z;
}.

Definition start (b : buffer) : Z := 0.

Definition buffer_init (init_size : Z) (h : heap) : option buffer * heap :=
  match malloc h init_size with
  | (None, h') => (None, h')
  | (Some m, h') =>
      (Some {| mem := m; gap := 0; post := 0 + init_size;
               end_ := 0 + init_size; relpos := 0 |}, h')
  end.

Definition buffer_forwards (b : buffer) : buffer :=
  if post b + relpos b <? end_ b then
    {| mem := mem b; gap := gap b; post := post b; end_ := end_ b;
       relpos := to_int (relpos b + 1) |}
  else b.

Definition buffer_backwards (b : buffer) : buffer :=
  if start b <? gap b + relpos b then
    {| mem := mem b; gap := gap b; post := post b; end_ := end_ b;
       relpos := to_int (relpos b - 1) |}
  else b.

Definition buffer_move_gap (b : buffer) : option buffer :=
  if relpos b =? 0 then Some b
  else if relpos b <? 0 then
    let g := gap b + relpos b in
    let p := post b + relpos b in
    m ← memmove (mem b) p g (- relpos b);
    Some {| mem := m; gap := g; post := p; end_ := end_ b; relpos := 0 |}
  else
    m ← memmove (mem b) (gap b) (post b) (relpos b);
    Some {| mem := m; gap := gap b + relpos b; post := post b + relpos b;
            end_ := end_ b; relpos := 0 |}.

(** [*b->gap++ = ch] *)
Definition store_at_gap (b : buffer) (ch : Z) : option buffer :=
  if bool_decide (0 ≤ gap b < len (mem b)) then
    Some {| mem := <[Z.to_nat (gap b) := to_char ch]> (mem b);
            gap := gap b + 1; post := post b; end_ := end_ b;
            relpos := relpos b |}
  else None.

(** The result is [None] on undefined behaviour, otherwise the returned
    [bool], the buffer as the call leaves it and the rest of the heap
    script. *)
Definition buffer_insertch (b : buffer) (ch : Z) (h : heap)
    : option (bool * buffer * heap) :=
  b1 ← buffer_move_gap b;
  if gap b1 =? post b1 then
    let newsize := to_size ((end_ b1 - start b1) * 2) in
    match realloc h (mem b1) newsize with
    | (None, h') => Some (false, b1, h')
    | (Some newbuf, h') =>
        b2 ← store_at_gap
               {| mem := newbuf;
                  gap := 0 + (gap b1 - start b1);
                  post := 0 + newsize + (end_ b1 - post b1);
                  end_ := 0 + newsize;
                  relpos := relpos b1 |} ch;
        Some (true, b2, h')
    end
  else
    b2 ← store_at_gap b1 ch;
    Some (true, b2, h).

Definition buffer_delete_forwards (b : buffer) : option buffer :=
  b1 ← buffer_move_gap b;
  Some (if post b1 <? end_ b1 then
          {| mem := mem b1; gap := gap b1; post := post b1 + 1;
             end_ := end_ b1; relpos := relpos b1 |}
        else b1).

Definition buffer_delete_backwards (b : buffer) : option buffer :=
  b1 ← buffer_move_gap b;
  Some (if start b1 <? gap b1 then
          {| mem := mem b1; gap := gap b1 - 1; post := post b1;
             end_ := end_ b1; relpos := relpos b1 |}
        else b1).

(** The two byte runs, the line they spell and the cursor. *)
Definition pre_bytes (b : buffer) : list Z := take (Z.to_nat (gap b)) (mem b).
Definition post_bytes (b : buffer) : list Z := drop (Z.to_nat (post b)) (mem b).
Definition line (b : buffer) : list Z := pre_bytes b ++ post_bytes b.
Definition cursor (b : buffer) : Z := gap b + relpos b.

(** ** The terminal *)

(** The two fields of [struct termios] that the program touches. *)
Record termios := {
  c_oflag : Z;
  c_lflag : Z;
}.

(** The world outside the buffer.
    - [tty]: the attributes of the terminal on standard input; [None] when
      [tcgetattr] fails (standard input is not a terminal).
    - [tcset_script]: whether the calls of [tcsetattr] still to come succeed,
      first call first; once used up every call succeeds.
    - [tcset_log]: the attributes handed to [tcsetattr] so far, oldest first,
      whether the call succeeded or not.
    - [hp]: the heap script.
    - [frees]: the number of calls of [free]. *)
Record world := {
  tty : option termios;
  tcset_script : list bool;
  tcset_log : list termios;
  hp : heap;
  frees : nat;
}.

Definition tcgetattr (w : world) : option termios := tty w.

Definition tcsetattr (t : termios) (w : world) : bool * world :=
  let ok := hd true (tcset_script w) in
  (ok, {| tty := if ok then Some t else tty w;
          tcset_script := tl (tcset_script w);
          tcset_log := tcset_log w ++ [t];
          hp := hp w;
          frees := frees w |}).

Definition set_heap (w : world) (h : heap) : world :=
  {| tty := tty w; tcset_script := tcset_script w; tcset_log := tcset_log w;
     hp := h; frees := frees w |}.

Definition free (w : world) : world :=
  {| tty := tty w; tcset_script := tcset_script w; tcset_log := tcset_log w;
     hp := hp w; frees := S (frees w) |}.

(** The attributes [setup_terminal] derives from the saved ones. *)
Definition raw_of (P : platform) (old : termios) : termios :=
  {| c_oflag := Z.land (c_oflag old) (OPOST P);
     c_lflag := Z.land (c_lflag old) (Z.lnot (Z.lor (ECHO P) (ICANON P))) |}.

(** The returned [bool] and the saved attributes [*old_termios]; the latter
    are [None] when [tcgetattr] did not fill them in. *)
Definition setup_terminal (P : platform) (w : world)
    : bool * option termios * world :=
  match tcgetattr w with
  | None => (false, None, w)
  | Some old =>
      let raw := raw_of P old in
      match tcsetattr raw w with
      | (false, w') => (false, Some old, w')
      | (true, w') => (true, Some old, w')
      end
  end.

Definition restore_terminal (old_termios : termios) (w : world) : bool * world :=
  match tcsetattr old_termios w with
  | (false, w') => (false, w')
  | (true, w') => (true, w')
  end.

(** ** The key decoder *)

(** Outcome of [read(STDIN_FILENO, c, 3)]: an error (a negative count), or the
    bytes delivered, of which at most three are taken; no bytes is the end of
    the input. *)
Inductive read_result :=
  | ReadError
  | ReadBytes (bs : list Z).

(** One call of [getkey]: the bytes the local array [c] holds before the
    read writes to it, and the outcome of the read. *)
Record read_call := {
  c_before : list Z;
  result : read_result;
}.

(** A read that delivers the single byte [k], into a zeroed array. *)
Definition typed (k : Z) : read_call :=
  {| c_before := [0; 0; 0]; result := ReadBytes [k] |}.

(** A read that delivers the bytes [bs], into a zeroed array. *)
Definition burst (bs : list Z) : read_call :=
  {| c_before := [0; 0; 0]; result := ReadBytes bs |}.

Definition getkey (P : platform) (r : read_call) : Z :=
  match result r with
  | ReadError => KEY_NOKEY
  | ReadBytes bs =>
      let got := take 3 bs in
      let n := len got in
      let c := got ++ drop (length got) (c_before r) in
      let c_ i := char_to_int P (nth i c 0) in
      if n <? 3 then c_ 0%nat
      else if negb ((c_ 0%nat =? 27) && (c_ 1%nat =? 91)) then c_ 0%nat
      else if c_ 2%nat =? 65 then KEY_UP
      else if c_ 2%nat =? 66 then KEY_DOWN
      else if c_ 2%nat =? 67 then KEY_RIGHT
      else if c_ 2%nat =? 68 then KEY_LEFT
      else KEY_NOKEY
  end.

(** ** The edit loop *)

(** The [switch] of [bread_line] on a key other than the newline.  [None] is
    undefined behaviour; the [bool] is [false] when the insertion failed and
    [bread_line] is about to give up. *)
Definition bread_line_switch (b : buffer) (k : Z) (h : heap)
    : option (bool * buffer * heap) :=
  if k =? KEY_NOKEY then Some (true, b, h)
  else if (k =? CTRL_KEY 98) || (k =? KEY_LEFT) then
    Some (true, buffer_backwards b, h)
  else if (k =? CTRL_KEY 102) || (k =? KEY_RIGHT) then
    Some (true, buffer_forwards b, h)
  else if (k =? KEY_UP) || (k =? CTRL_KEY 97) then
    Some (true, {| mem := mem b; gap := gap b; post := post b; end_ := end_ b;
                   relpos := to_int (start b - gap b - relpos b) |}, h)
  else if (k =? KEY_DOWN) || (k =? CTRL_KEY 101) then
    Some (true, {| mem := mem b; gap := gap b; post := post b; end_ := end_ b;
                   relpos := to_int (end_ b - post b) |}, h)
  else if k =? CTRL_KEY 100 then
    b' ← buffer_delete_forwards b; Some (true, b', h)
  else if k =? CTRL_KEY 117 then
    Some (true, {| mem := mem b; gap := start b; post := end_ b;
                   end_ := end_ b; relpos := relpos b |}, h)
  else if (k =? CTRL_KEY 104) || (k =? 127) then
    b' ← buffer_delete_backwards b; Some (true, b', h)
  else buffer_insertch b k h.

(** How the [for (;;)] loop of [bread_line] ends. *)
Inductive loop_end :=
  | LoopUndefined
  | LoopBlocked (b : buffer) (h : heap)
  | LoopNoMem (b : buffer) (h : heap)
  | LoopSubmit (b : buffer) (h : heap).

(** The loop reads until a key is the newline.  When the scripted reads are
    used up the next [read] never returns. *)
Fixpoint bread_line_loop (P : platform) (b : buffer) (input : list read_call)
    (h : heap) : loop_end :=
  match input with
  | [] => LoopBlocked b h
  | r :: input' =>
      let k := getkey P r in
      if k =? 10 then LoopSubmit b h
      else
        match bread_line_switch b k h with
        | None => LoopUndefined
        | Some (false, b', h') => LoopNoMem b' h'
        | Some (true, b', h') => bread_line_loop P b' input' h'
        end
  end.

(** How a call of [bread_line] ends: undefined behaviour, a read that never
    returns, or a return with the line ([None] for [NULL]). *)
Inductive outcome :=
  | Undefined
  | Blocked (w : world)
  | Returned (l : option (list Z)) (w : world).

(** The tail of [bread_line] after the loop: the sizes, as [size_t]. *)
Definition presize (b : buffer) : Z := to_size (gap b - start b).
Definition postsize (b : buffer) : Z := to_size (end_ b - post b).
Definition size (b : buffer) : Z := to_size (presize b + postsize b).

(** The two [memcpy] into the result block of [size + 1] bytes.  The result
    is the bytes in front of the terminating zero that [line[size]]
    receives. *)
Definition copy_line (b : buffer) : option (list Z) :=
  if bool_decide (presize b ≤ len (mem b)
                  ∧ 0 ≤ post b ∧ post b + postsize b ≤ len (mem b)
                  ∧ presize b + postsize b < to_size (size b + 1))
  then Some (take (Z.to_nat (presize b)) (mem b)
             ++ take (Z.to_nat (postsize b)) (drop (Z.to_nat (post b)) (mem b)))
  else None.

Definition bread_line (P : platform) (input : list read_call) (w : world)
    : outcome :=
  match setup_terminal P w with
  | (false, _, w1) => Returned None w1
  | (true, None, w1) => Returned None w1
  | (true, Some old_termios, w1) =>
      match buffer_init BREAD_INITIAL_SIZE (hp w1) with
      | (None, h2) => Returned None (set_heap w1 h2)
      | (Some buffer0, h2) =>
          match bread_line_loop P buffer0 input h2 with
          | LoopUndefined => Undefined
          | LoopBlocked _ h3 => Blocked (set_heap w1 h3)
          | LoopNoMem _ h3 => Returned None (free (set_heap w1 h3))
          | LoopSubmit b h3 =>
              match malloc h3 (to_size (size b + 1)) with
              | (None, h4) => Returned None (free (set_heap w1 h4))
              | (Some _, h4) =>
                  match copy_line b with
                  | None => Undefined
                  | Some l =>
                      let '(_, w5) :=
                        restore_terminal old_termios (set_heap w1 h4) in
                      Returned (Some l) w5
                  end
              end
          end
      end
  end.

(** The calls of [tcsetattr] that [bread_line] made after the one that
    switched the terminal to raw mode. *)
Definition restores (w0 w : world) : list termios :=
  drop (S (length (tcset_log w0))) (tcset_log w).

(** ** Well-formed buffers *)

(** The pointers are ordered inside the block, the block fits an [int], and
    the pending offset keeps the cursor inside the text. *)
Record valid (b : buffer) : Prop := {
  valid_gap : 0 ≤ gap b;
  valid_gap_post : gap b ≤ post b;
  valid_post : post b ≤ end_ b;
  valid_end : end_ b = len (mem b);
  valid_int : end_ b < 2 ^ 31;
  valid_cursor_lo : 0 ≤ gap b + relpos b;
  valid_cursor_hi : post b + relpos b ≤ end_ b;
}.

(** ** The plain string model of the specification

    A line of bytes with a cursor between 0 and its length, and the logical
    edits on it. *)

Inductive edit :=
  | Insert (c : Z)
  | MoveLeft
  | MoveRight
  | MoveToStart
  | MoveToEnd
  | DeleteForward
  | DeleteBackward
  | DeleteAll.

Record line_model := {
  text : list Z;
  cur : nat;
}.

Definition model_empty : line_model := {| text := []; cur := 0 |}.

Definition model_apply (m : line_model) (e : edit) : line_model :=
  match e with
  | Insert c =>
      {| text := take (cur m) (text m) ++ c :: drop (cur m) (text m);
         cur := S (cur m) |}
  | MoveLeft => {| text := text m; cur := Nat.pred (cur m) |}
  | MoveRight =>
      {| text := text m;
         cur := if (cur m <? length (text m))%nat then S (cur m) else cur m |}
  | MoveToStart => {| text := text m; cur := 0 |}
  | MoveToEnd => {| text := text m; cur := length (text m) |}
  | DeleteForward =>
      {| text := take (cur m) (text m) ++ drop (S (cur m)) (text m);
         cur := cur m |}
  | DeleteBackward =>
      {| text := take (Nat.pred (cur m)) (text m) ++ drop (cur m) (text m);
         cur := Nat.pred (cur m) |}
  | DeleteAll => model_empty
  end.

Definition model_run (es : list edit) : line_model :=
  foldl model_apply model_empty es.

(** The key that the control-key table binds to each edit. *)
Definition key_of_edit (e : edit) : Z :=
  match e with
  | Insert c => c
  | MoveLeft => CTRL_KEY 98
  | MoveRight => CTRL_KEY 102
  | MoveToStart => CTRL_KEY 97
  | MoveToEnd => CTRL_KEY 101
  | DeleteForward => CTRL_KEY 100
  | DeleteBackward => CTRL_KEY 104
  | DeleteAll => CTRL_KEY 117
  end.

(** The edits typed one key per read. *)
Definition type_edits (es : list edit) : list read_call :=
  map (λ e, typed (key_of_edit e)) es.

(** An empty buffer of [n] zeroed bytes. *)
Definition empty_buffer (n : Z) : buffer :=
  {| mem := resize [] (Z.to_nat n) (λ _, 0); gap := 0; post := n; end_ := n;
     relpos := 0 |}.

(** A terminal in cooked mode, nothing scripted to fail. *)
Definition cooked : termios := {| c_oflag := 5; c_lflag := 35387 |}.

Definition calm : world :=
  {| tty := Some cooked; tcset_script := []; tcset_log := []; hp := [];
     frees := 0 |}.

(** The buffer of a session in which [a] was typed 64 times and the cursor
    then moved left once: the block is full and one step is pending. *)
Definition full_left : buffer :=
  {| mem := replicate 64 97; gap := 64; post := 64; end_ := 64;
     relpos := -1 |}.

(** A read at the end of the input, into an array that holds [c]. *)
Definition end_of_input (c : list Z) : read_call :=
  {| c_before := c; result := ReadBytes [] |}.

(** A world like [calm] with the heap script [h]. *)
Definition with_heap (h : heap) : world := set_heap calm h.

(** A world like [calm] in which the second [tcsetattr] fails. *)
Definition restore_fails : world :=
  {| tty := Some cooked; tcset_script := [true; false]; tcset_log := [];
     hp := []; frees := 0 |}.

(** [buffer_insertch] for each byte of [l] in turn, up to the first failure. *)
Fixpoint insert_all (b : buffer) (l : list Z) (h : heap)
    : option (bool * buffer * heap) :=
  match l with
  | [] => Some (true, b, h)
  | ch :: l' =>
      match buffer_insertch b ch h with
      | Some (true, b', h') => insert_all b' l' h'
      | r => r
      end
  end.

(** A heap script on which no allocation fails. *)
Definition all_mem (h : heap) : Prop := Forall (λ a, a ≠ NoMem) h.

(** Well-formedness of a concrete buffer. *)
Ltac valid_by_computation := constructor; vm_compute; congruence.

(** ** The buffer as a line model *)

(** The line model that a buffer stands for. *)
Definition model_of (b : buffer) : line_model :=
  {| text := line b; cur := Z.to_nat (cursor b) |}.

(** The bytes that the [switch] of [bread_line] binds to no edit. *)
Definition plain (c : Z) : Prop :=
  0 ≤ c < 256 ∧ c ∉ [1; 2; 4; 5; 6; 8; 10; 21; 127].

(** The states in which the code carries out an edit as the line model
    does: an insertion finds room in the gap, or grows the block with the
    cursor at the end of the line; move-to-start and delete-all find no
    offset pending. *)
Definition clear (b : buffer) (e : edit) : Prop :=
  match e with
  | Insert c =>
      plain c
      ∧ (gap b < post b
         ∨ (cursor b = len (line b) ∧ 0 < end_ b ∧ 2 * end_ b < 2 ^ 31))
  | MoveToStart | DeleteAll => relpos b = 0
  | _ => True
  end.

(** A run of edits each of which starts in such a state. *)
Fixpoint clear_run (P : platform) (b : buffer) (es : list edit) (h : heap)
    : Prop :=
  match es with
  | [] => True
  | e :: es' =>
      clear b e
      ∧ ∀ b' h',
          bread_line_switch b (getkey P (typed (key_of_edit e))) h
          = Some (true, b', h') →
          clear_run P b' es' h'
  end.

(** ** Standard output

    What [bread_line] writes: the prompt, the line after every key, and the
    line feed on submit.  The bytes are those handed to [printf], in
    order. *)

(** The bytes of a C string: those in front of its first zero byte. *)
Fixpoint c_string (s : list Z) : list Z :=
  match s with
  | [] => []
  | c :: s' => if c =? 0 then [] else c :: c_string s'
  end.

(** The loop of [bread_line] over the prompt: [n] is [prompt_len], a
    [size_t]; the bytes 1 and 2 switch the counting off and on. *)
Fixpoint count_prompt (counting : bool) (n : Z) (s : list Z) : Z :=
  match s with
  | [] => n
  | c :: s' =>
      if c =? 0 then n
      else if c =? 1 then count_prompt false n s'
      else if c =? 2 then count_prompt true n s'
      else count_prompt counting (if counting then to_size (n + 1) else n) s'
  end.

Definition prompt_len (prompt : list Z) : Z := count_prompt true 0 prompt.

Fixpoint digits (u : Decimal.uint) : list Z :=
  match u with
  | Decimal.Nil => []
  | Decimal.D0 u' => 48 :: digits u'
  | Decimal.D1 u' => 49 :: digits u'
  | Decimal.D2 u' => 50 :: digits u'
  | Decimal.D3 u' => 51 :: digits u'
  | Decimal.D4 u' => 52 :: digits u'
  | Decimal.D5 u' => 53 :: digits u'
  | Decimal.D6 u' => 54 :: digits u'
  | Decimal.D7 u' => 55 :: digits u'
  | Decimal.D8 u' => 56 :: digits u'
  | Decimal.D9 u' => 57 :: digits u'
  end.

(** [%lu]: the decimal digits of an [unsigned long]. *)
Definition print_lu (n : Z) : list Z := digits (N.to_uint (Z.to_N n)).

(** [%.*s] with the precision [prec] on the bytes at offset [ptr] of the
    block [m]: at most [prec] bytes, up to the first zero byte; a negative
    precision counts as none given.  [None] when the pointer is outside the
    block or the search for the zero byte leaves the block. *)
Definition print_s (m : list Z) (ptr prec : Z) : option (list Z) :=
  if bool_decide (0 ≤ ptr ≤ len m) then
    let avail := drop (Z.to_nat ptr) m in
    let wanted := if 0 <=? prec then take (Z.to_nat prec) avail else avail in
    let out := c_string wanted in
    if bool_decide (length out = length wanted ∧ (prec < 0 ∨ len avail < prec))
    then None
    else Some out
  else None.

(** The redraw at the end of every turn of the loop: carriage return,
    cursor forward over the prompt, erase to the end of the line, the two
    runs, and cursor backward where [postsize - relpos], an
    [unsigned long], is not 0. *)
Definition render (plen : Z) (b : buffer) : option (list Z) :=
  pre ← print_s (mem b) (start b) (to_int (gap b - start b));
  pst ← print_s (mem b) (post b) (to_int (postsize b));
  let back := to_size (postsize b - relpos b) in
  Some ([13; 27; 91] ++ print_lu plen ++ [67; 27; 91; 75] ++ pre ++ pst
        ++ (if 0 <? back then [27; 91] ++ print_lu back ++ [68] else [])).



(** The redraw in terms of the line model: the text up to a zero byte on
    either side of the gap cannot be told from the model alone, so the two
    runs are given. *)
Definition draw (plen : Z) (pre pst : list Z) (back : Z) : list Z :=
  [13; 27; 91] ++ print_lu plen ++ [67; 27; 91; 75]
  ++ c_string pre ++ c_string pst
  ++ (if bool_decide (0 < back) then [27; 91] ++ print_lu back ++ [68] else []).

(** Reads that [getkey] turns into a key. *)
Definition is_key (P : platform) (r : read_call) : Prop :=
  getkey P r ≠ KEY_NOKEY.

Global Instance is_key_dec P r : Decision (is_key P r).
Proof. unfold is_key. apply _. Defined.

(** A byte. *)
Definition is_byte (c : Z) : Prop := 0 ≤ c < 256.

(** A byte that is none of the three that the prompt loop looks for. *)
Definition visible (c : Z) : Prop := is_byte c ∧ c ≠ 0 ∧ c ≠ 1 ∧ c ≠ 2.

(** ** Buffers of sample sessions *)

(** After [h], [i] and move-left. *)
Definition hi_left : buffer :=
  {| mem := [104; 105] ++ replicate 62 0; gap := 2; post := 64; end_ := 64;
     relpos := -1 |}.

(** After [a] typed 64 times: the gap is used up, the cursor is at the
    end. *)
Definition full : buffer :=
  {| mem := replicate 64 97; gap := 64; post := 64; end_ := 64; relpos := 0 |}.

(** A read whose array and delivered bytes are bytes. *)
Definition bytes_only (r : read_call) : Prop :=
  Forall is_byte (c_before r)
  ∧ match result r with
    | ReadError => True
    | ReadBytes bs => Forall is_byte bs
    end.







(** * Properties *)

(** ** Integer conversions *)

Lemma to_int_small (x : Z) : - 2 ^ 31 ≤ x < 2 ^ 31 → to_int x = x.
Proof.
  intros Hx. unfold to_int.
  rewrite Z.mod_small by lia. lia.
Qed.

Lemma to_size_small (x : Z) : 0 ≤ x < 2 ^ 64 → to_size x = x.
Proof. intros Hx. unfold to_size. by rewrite Z.mod_small. Qed.

Lemma to_char_range (k : Z) : 0 ≤ to_char k < 256.
Proof. unfold to_char. apply Z.mod_pos_bound. lia. Qed.

(** ** Blocks of bytes *)

Lemma length_resize (m : list Z) (n : nat) junk : length (resize m n junk) = n.
Proof.
  unfold resize.
  rewrite length_app, length_take, length_map, length_seq. lia.
Qed.

Lemma resize_grow (m : list Z) (n : nat) junk :
  (length m ≤ n)%nat → take (length m) (resize m n junk) = m.
Proof.
  intros Hn. unfold resize.
  rewrite (take_ge m n) by done.
  by rewrite take_app_length.
Qed.

(** Moving [n] bytes from in front of the gap to behind it. *)
Lemma gap_left (m : list Z) (g p n : nat) :
  (g ≤ p)%nat → (p + n ≤ length m)%nat →
  let m' := take p m ++ take n (drop g m) ++ drop (p + n) m in
  length m' = length m
  ∧ take g m' = take g m
  ∧ drop p m' = take n (drop g m) ++ drop (p + n) m.
Proof.
  intros Hgp Hpn m'. subst m'. split_and!.
  - rewrite !length_app, !length_take, !length_drop. lia.
  - rewrite take_app_le by (rewrite length_take; lia).
    rewrite take_take. f_equal. lia.
  - rewrite drop_app_ge by (rewrite length_take; lia).
    rewrite length_take.
    replace (p - p `min` length m)%nat with 0%nat by lia. done.
Qed.

(** Moving [n] bytes from behind the gap to in front of it. *)
Lemma gap_right (m : list Z) (g p n : nat) :
  (g ≤ p)%nat → (p + n ≤ length m)%nat →
  let m' := take g m ++ take n (drop p m) ++ drop (g + n) m in
  length m' = length m
  ∧ take (g + n) m' = take g m ++ take n (drop p m)
  ∧ drop (p + n) m' = drop (p + n) m.
Proof.
  intros Hgp Hpn m'. subst m'.
  assert (Hl1 : length (take g m) = g) by (rewrite length_take; lia).
  assert (Hl2 : length (take n (drop p m)) = n)
    by (rewrite length_take, length_drop; lia).
  split_and!.
  - rewrite !length_app, Hl1, Hl2, length_drop. lia.
  - rewrite app_assoc.
    rewrite take_app_le by (rewrite length_app; lia).
    rewrite take_ge by (rewrite length_app; lia). done.
  - rewrite app_assoc.
    rewrite drop_app_ge by (rewrite length_app; lia).
    rewrite length_app, Hl1, Hl2, drop_drop. f_equal. lia.
Qed.

Lemma memmove_in_block (m : list Z) (dst src n : Z) :
  0 ≤ n → 0 ≤ src → src + n ≤ len m → 0 ≤ dst → dst + n ≤ len m →
  memmove m dst src n
  = Some (take (Z.to_nat dst) m
          ++ take (Z.to_nat n) (drop (Z.to_nat src) m)
          ++ drop (Z.to_nat dst + Z.to_nat n) m).
Proof.
  intros. unfold memmove.
  rewrite bool_decide_true by done.
  by rewrite Z2Nat.inj_add by lia.
Qed.

(** ** Resolving the pending offset *)

(** On a well-formed buffer [buffer_move_gap] is defined; it keeps the line,
    the cursor, the block size and the width of the gap, and leaves no pending
    offset. *)
Lemma buffer_move_gap_valid (b : buffer) :
  valid b →
  ∃ b', buffer_move_gap b = Some b'
        ∧ valid b'
        ∧ relpos b' = 0
        ∧ gap b' = cursor b
        ∧ post b' - gap b' = post b - gap b
        ∧ end_ b' = end_ b
        ∧ line b' = line b.
Proof.
  intros [Hg Hgp Hp He Hi Hlo Hhi]. unfold buffer_move_gap, cursor.
  destruct (Z.eqb_spec (relpos b) 0) as [H0|H0].
  { exists b. rewrite H0. split_and!; done || lia. }
  unfold len in He.
  destruct (Z.ltb_spec (relpos b) 0) as [Hneg|Hpos].
  - rewrite memmove_in_block by (unfold len; lia). simpl.
    eexists. split; [done|].
    destruct (gap_left (mem b) (Z.to_nat (gap b + relpos b))
                (Z.to_nat (post b + relpos b)) (Z.to_nat (- relpos b)))
      as (Hlen & Hpre & Hpost); [lia..|].
    split_and!; simpl; try lia.
    + constructor; simpl; unfold len; try lia.
    + unfold line, pre_bytes, post_bytes; simpl.
      rewrite Hpre, Hpost, app_assoc, take_take_drop.
      do 2 f_equal; lia.
  - rewrite memmove_in_block by (unfold len; lia). simpl.
    eexists. split; [done|].
    destruct (gap_right (mem b) (Z.to_nat (gap b)) (Z.to_nat (post b))
                (Z.to_nat (relpos b))) as (Hlen & Hpre & Hpost); [lia..|].
    split_and!; simpl; try lia.
    + constructor; simpl; unfold len; try lia.
    + unfold line, pre_bytes, post_bytes; simpl.
      rewrite !Z2Nat.inj_add by lia.
      rewrite Hpre, Hpost, <- app_assoc. f_equal.
      rewrite <- drop_drop. apply take_drop.
Qed.

(** ** The runs of a well-formed buffer *)

Lemma length_pre_bytes (b : buffer) :
  valid b → len (pre_bytes b) = gap b.
Proof.
  intros Hv. destruct Hv. unfold len, pre_bytes in *.
  rewrite length_take. lia.
Qed.

Lemma length_post_bytes (b : buffer) :
  valid b → len (post_bytes b) = end_ b - post b.
Proof.
  intros Hv. destruct Hv. unfold len, post_bytes in *.
  rewrite length_drop. lia.
Qed.

Lemma length_line (b : buffer) :
  valid b → len (line b) = gap b + (end_ b - post b).
Proof.
  intros Hv. unfold line, len.
  rewrite length_app, Nat2Z.inj_add.
  fold (len (pre_bytes b)) (len (post_bytes b)).
  by rewrite length_pre_bytes, length_post_bytes.
Qed.

(** With no pending offset the runs are the line cut at the cursor. *)
Lemma runs_at_rest (b : buffer) :
  valid b → relpos b = 0 →
  pre_bytes b = take (Z.to_nat (cursor b)) (line b)
  ∧ post_bytes b = drop (Z.to_nat (cursor b)) (line b).
Proof.
  intros Hv H0. pose proof (length_pre_bytes b Hv) as Hl.
  unfold cursor, line, len in *. rewrite H0, Z.add_0_r.
  assert (Z.to_nat (gap b) = length (pre_bytes b)) as -> by lia.
  by rewrite take_app_length, drop_app_length.
Qed.

(** The cursor of a well-formed buffer is inside the line. *)
Lemma valid_cursor_bounds (b : buffer) :
  valid b → 0 ≤ cursor b ≤ len (line b).
Proof.
  intros Hv. rewrite length_line by done.
  destruct Hv. unfold cursor. lia.
Qed.

(** ** Storing a byte at the gap *)

Lemma store_at_gap_room (b : buffer) (ch : Z) :
  valid b → relpos b = 0 → gap b < post b →
  ∃ b', store_at_gap b ch = Some b'
        ∧ valid b'
        ∧ relpos b' = 0
        ∧ gap b' = gap b + 1
        ∧ post b' = post b
        ∧ end_ b' = end_ b
        ∧ pre_bytes b' = pre_bytes b ++ [to_char ch]
        ∧ post_bytes b' = post_bytes b.
Proof.
  intros [Hg Hgp Hp He Hi Hlo Hhi] H0 Hroom. unfold store_at_gap.
  unfold len in *.
  rewrite bool_decide_true by (unfold len; lia).
  eexists. split; [done|]. simpl.
  split_and!; try done.
  - constructor; simpl; unfold len; rewrite ?length_insert; lia.
  - unfold pre_bytes; simpl.
    rewrite Z2Nat.inj_add by lia. change (Z.to_nat 1) with 1%nat.
    rewrite Nat.add_1_r.
    erewrite take_S_r by (apply list_lookup_insert_eq; lia).
    by rewrite take_insert_ge by lia.
  - unfold post_bytes; simpl.
    by rewrite drop_insert_lt by lia.
Qed.

(** ** Insertion *)

(** Where the gap has room, [buffer_insertch] puts the byte at the cursor
    and moves the cursor behind it; it does not allocate. *)
Lemma buffer_insertch_room (b : buffer) (ch : Z) (h : heap) :
  valid b → gap b < post b →
  ∃ b', buffer_insertch b ch h = Some (true, b', h)
        ∧ valid b'
        ∧ relpos b' = 0
        ∧ end_ b' = end_ b
        ∧ cursor b' = cursor b + 1
        ∧ line b' = take (Z.to_nat (cursor b)) (line b)
                    ++ to_char ch :: drop (Z.to_nat (cursor b)) (line b).
Proof.
  intros Hv Hroom.
  destruct (buffer_move_gap_valid b Hv)
    as (b1 & Hmv & Hv1 & H0 & Hg1 & Hw & He & Hl).
  destruct (store_at_gap_room b1 ch Hv1 H0) as
    (b2 & Hst & Hv2 & Hrel & Hg2 & Hp2 & He2 & Hpre & Hpost); [lia|].
  destruct (runs_at_rest b1 Hv1 H0) as [Hpre1 Hpost1].
  unfold buffer_insertch. rewrite Hmv. simpl.
  destruct (Z.eqb_spec (gap b1) (post b1)) as [?|_]; [lia|].
  rewrite Hst. simpl. exists b2.
  split_and!; try done; try lia.
  - unfold cursor in *. lia.
  - unfold line at 1. rewrite Hpre, Hpost, Hpre1, Hpost1, Hl.
    assert (cursor b1 = cursor b) as -> by (unfold cursor in *; lia).
    by rewrite <- app_assoc.
Qed.

(** Where the gap is used up and the cursor is at the end of the line,
    [buffer_insertch] doubles the block and appends the byte. *)
Lemma buffer_insertch_grow_at_end (b : buffer) (ch : Z) (h h' : heap) junk :
  valid b → gap b = post b → cursor b = end_ b →
  0 < end_ b → 2 * end_ b < 2 ^ 31 →
  next_alloc h = (Mem junk, h') →
  ∃ b', buffer_insertch b ch h = Some (true, b', h')
        ∧ valid b'
        ∧ relpos b' = 0
        ∧ end_ b' = 2 * end_ b
        ∧ cursor b' = cursor b + 1
        ∧ line b' = line b ++ [to_char ch].
Proof.
  intros Hv Hfull Hcur Hpos Hsmall Halloc.
  destruct (buffer_move_gap_valid b Hv)
    as (b1 & Hmv & Hv1 & H0 & Hg1 & Hw & He & Hl).
  unfold buffer_insertch. rewrite Hmv. simpl.
  destruct (Z.eqb_spec (gap b1) (post b1)) as [_|?]; [|lia].
  unfold realloc. rewrite Halloc. unfold start.
  rewrite to_size_small by lia.
  assert (Hpost1 : post b1 = end_ b1) by lia.
  pose proof (valid_end b1 Hv1) as Hend1. unfold len in Hend1.
  set (b1' := {| mem := resize (mem b1) (Z.to_nat ((end_ b1 - 0) * 2)) junk;
                 gap := 0 + (gap b1 - 0);
                 post := 0 + (end_ b1 - 0) * 2 + (end_ b1 - post b1);
                 end_ := 0 + (end_ b1 - 0) * 2;
                 relpos := relpos b1 |}).
  assert (Hv1' : valid b1').
  { destruct Hv1. constructor; simpl; unfold len; rewrite ?length_resize; lia. }
  destruct (store_at_gap_room b1' ch Hv1') as
    (b2 & Hst & Hv2 & Hrel & Hg2 & Hp2 & He2 & Hpre & Hpost); [simpl; lia..|].
  rewrite Hst. simpl. exists b2.
  split_and!; try done.
  - rewrite He2. simpl. lia.
  - unfold cursor in *. simpl in Hg2. lia.
  - unfold line at 1. rewrite Hpre, Hpost, <- Hl.
    assert (Hpre' : pre_bytes b1' = pre_bytes b1).
    { unfold pre_bytes; simpl.
      replace (Z.to_nat (0 + (gap b1 - 0))) with (length (mem b1)) by lia.
      rewrite resize_grow by lia.
      by rewrite (take_ge (mem b1)) by lia. }
    assert (Hpost' : post_bytes b1' = []).
    { unfold post_bytes; simpl. apply drop_ge. rewrite length_resize. lia. }
    assert (Hpost1' : post_bytes b1 = []).
    { unfold post_bytes. apply drop_ge. lia. }
    unfold line. by rewrite Hpre', Hpost', Hpost1', !app_nil_r.
Qed.

(** C9.  Resolving the pending offset is idempotent: for every buffer state
    a second [buffer_move_gap] in a row changes nothing, and on a well-formed
    buffer the first one is defined and leaves the pending offset 0. *)
Theorem buffer_move_gap_idempotent (b : buffer) :
  buffer_move_gap b ≫= buffer_move_gap = buffer_move_gap b
  ∧ (∀ b1, buffer_move_gap b = Some b1 →
           relpos b1 = 0 ∧ buffer_move_gap b1 = Some b1)
  ∧ (valid b → is_Some (buffer_move_gap b)).
Proof.
  assert (Hrest : ∀ b1, buffer_move_gap b = Some b1 →
                        relpos b1 = 0 ∧ buffer_move_gap b1 = Some b1).
  { intros b1. unfold buffer_move_gap at 1.
    destruct (Z.eqb_spec (relpos b) 0) as [H0|H0].
    - intros [= <-]. split; [done|].
      unfold buffer_move_gap. by rewrite H0.
    - destruct (relpos b <? 0).
      + destruct (memmove _ _ _ _); simpl; [|done]. by intros [= <-].
      + destruct (memmove _ _ _ _); simpl; [|done]. by intros [= <-]. }
  split_and!.
  - destruct (buffer_move_gap b) as [b1|] eqn:Hmv; [|done].
    simpl. by apply Hrest.
  - exact Hrest.
  - intros Hv.
    destruct (buffer_move_gap_valid b Hv) as (b1 & Hmv & _).
    by exists b1.
Qed.

Lemma buffer_move_gap_idempotent_witness :
  valid full_left
  ∧ ∃ b1, buffer_move_gap full_left = Some b1
          ∧ relpos b1 = 0
          ∧ buffer_move_gap b1 = Some b1.
Proof.
  assert (Hv : valid full_left) by valid_by_computation.
  split; [exact Hv|].
  destruct (buffer_move_gap_idempotent full_left) as (_ & Hrest & Hdef).
  destruct (Hdef Hv) as [b1 Hmv].
  exists b1. split; [exact Hmv|]. exact (Hrest b1 Hmv).
Defined.

(** ** A failed insertion *)

(** C6, as stated, fails: in a session that typed 64 bytes and moved left
    once, an insertion that fails for lack of memory has already moved the
    gap, so neither run is what it was. *)
Lemma failed_insert_changes_the_runs :
  ¬ (∀ b ch h b' h',
       valid b → buffer_insertch b ch h = Some (false, b', h') →
       pre_bytes b' = pre_bytes b ∧ post_bytes b' = post_bytes b
       ∧ line b' = line b ∧ cursor b' = cursor b).
Proof.
  intros Hclaim.
  assert (Hv : valid full_left) by valid_by_computation.
  destruct (Hclaim full_left 98 [NoMem]
              {| mem := replicate 64 97; gap := 63; post := 63; end_ := 64;
                 relpos := 0 |} [] Hv eq_refl) as (_ & Hpost & _).
  vm_compute in Hpost. discriminate Hpost.
Qed.

(** C6, amended.  When [buffer_insertch] fails for lack of memory the buffer
    is the one [buffer_move_gap] leaves: the pending offset is resolved, the
    block is the old one, the buffer is well-formed, and the line and the
    cursor are what they were; the two runs are what they were when no
    offset was pending. *)
Theorem buffer_insertch_nomem (b b' : buffer) (ch : Z) (h h' : heap) :
  valid b →
  buffer_insertch b ch h = Some (false, b', h') →
  buffer_move_gap b = Some b'
  ∧ valid b'
  ∧ end_ b' = end_ b
  ∧ line b' = line b
  ∧ cursor b' = cursor b
  ∧ pre_bytes b' = take (Z.to_nat (cursor b)) (line b)
  ∧ post_bytes b' = drop (Z.to_nat (cursor b)) (line b)
  ∧ (relpos b = 0 → b' = b).
Proof.
  intros Hv Hins.
  destruct (buffer_move_gap_valid b Hv)
    as (b1 & Hmv & Hv1 & H0 & Hg1 & Hw & He & Hl).
  assert (b' = b1) as ->.
  { unfold buffer_insertch in Hins. rewrite Hmv in Hins. simpl in Hins.
    destruct (gap b1 =? post b1).
    - destruct (realloc _ _ _) as [[newbuf|] h1].
      + destruct (store_at_gap _ _); simpl in Hins; congruence.
      + congruence.
    - destruct (store_at_gap _ _); simpl in Hins; congruence. }
  assert (Hc : cursor b1 = cursor b) by (unfold cursor in *; lia).
  destruct (runs_at_rest b1 Hv1 H0) as [Hpre Hpost].
  rewrite Hc, Hl in Hpre, Hpost.
  split_and!; try done.
  intros Hrel. unfold buffer_move_gap in Hmv.
  rewrite Hrel in Hmv. simpl in Hmv. congruence.
Qed.

Lemma buffer_insertch_nomem_witness :
  valid full_left
  ∧ ∃ b', buffer_insertch full_left 98 [NoMem] = Some (false, b', [])
          ∧ line b' = line full_left
          ∧ cursor b' = cursor full_left.
Proof.
  assert (Hv : valid full_left) by valid_by_computation.
  split; [exact Hv|].
  eexists. split; [reflexivity|].
  destruct (buffer_insertch_nomem full_left _ 98 [NoMem] [] Hv eq_refl)
    as (_ & _ & _ & Hl & Hc & _ & _ & _).
  exact (conj Hl Hc).
Defined.

(** ** Sessions used below *)

Lemma buffer_init_calm :
  buffer_init BREAD_INITIAL_SIZE [] = (Some (empty_buffer 64), []).
Proof. reflexivity. Qed.

Lemma valid_empty_buffer (n : Z) : 0 ≤ n < 2 ^ 31 → valid (empty_buffer n).
Proof.
  intros Hn. constructor; simpl; unfold len; rewrite ?length_resize; lia.
Qed.

Lemma full_left_reached :
  bread_line_loop linux (empty_buffer 64)
    (type_edits (replicate 64 (Insert 97) ++ [MoveLeft])) []
  = LoopBlocked full_left [].
Proof. vm_compute. reflexivity. Qed.

(** ** Moving the cursor *)

Lemma buffer_forwards_valid (b : buffer) :
  valid b →
  valid (buffer_forwards b)
  ∧ line (buffer_forwards b) = line b
  ∧ cursor (buffer_forwards b)
    = (if bool_decide (cursor b < len (line b)) then cursor b + 1 else cursor b).
Proof.
  intros Hv. pose proof (length_line b Hv) as Hlen.
  destruct Hv as [Hg Hgp Hp He Hi Hlo Hhi].
  unfold buffer_forwards, cursor in *.
  destruct (Z.ltb_spec (post b + relpos b) (end_ b)) as [Hlt|Hge].
  - rewrite bool_decide_true by lia. simpl.
    rewrite to_int_small by lia.
    split_and!; [constructor; simpl; lia|done|lia].
  - rewrite bool_decide_false by lia.
    split_and!; [by constructor|done|lia].
Qed.

Lemma buffer_backwards_valid (b : buffer) :
  valid b →
  valid (buffer_backwards b)
  ∧ line (buffer_backwards b) = line b
  ∧ cursor (buffer_backwards b)
    = (if bool_decide (0 < cursor b) then cursor b - 1 else cursor b).
Proof.
  intros [Hg Hgp Hp He Hi Hlo Hhi].
  unfold buffer_backwards, cursor, start in *.
  destruct (Z.ltb_spec 0 (gap b + relpos b)) as [Hlt|Hge].
  - rewrite bool_decide_true by lia. simpl.
    rewrite to_int_small by lia.
    split_and!; [constructor; simpl; lia|done|lia].
  - rewrite bool_decide_false by lia.
    split_and!; [by constructor|done|lia].
Qed.

(** Moving left with the cursor at 0 and moving right with the cursor at
    the end of the line change nothing. *)
Lemma buffer_backwards_at_start (b : buffer) :
  cursor b = 0 → buffer_backwards b = b.
Proof.
  unfold cursor, buffer_backwards, start. intros Hc.
  destruct (Z.ltb_spec 0 (gap b + relpos b)); [lia|done].
Qed.

Lemma buffer_forwards_at_end (b : buffer) :
  valid b → cursor b = len (line b) → buffer_forwards b = b.
Proof.
  intros Hv. rewrite length_line by done.
  unfold cursor, buffer_forwards. intros Hc.
  destruct (Z.ltb_spec (post b + relpos b) (end_ b)); [lia|done].
Qed.

(** The keys bound to move-to-end put the cursor at the end of the line,
    whatever offset was pending. *)
Lemma move_to_end_cursor (b : buffer) (k : Z) (h : heap) :
  valid b → k = KEY_DOWN ∨ k = CTRL_KEY 101 →
  ∃ b', bread_line_switch b k h = Some (true, b', h)
        ∧ valid b'
        ∧ line b' = line b
        ∧ cursor b' = len (line b).
Proof.
  intros Hv Hk. rewrite length_line by done.
  destruct Hv as [Hg Hgp Hp He Hi Hlo Hhi].
  eexists. split.
  { destruct Hk as [-> | ->]; reflexivity. }
  unfold cursor. simpl. rewrite to_int_small by lia.
  split_and!; [constructor; simpl; lia|done|lia].
Qed.

(** The keys bound to move-to-start put the cursor at the negated pending
    offset: at 0 exactly when no offset was pending. *)
Lemma move_to_start_cursor (b : buffer) (k : Z) (h : heap) :
  valid b → k = KEY_UP ∨ k = CTRL_KEY 97 →
  ∃ b', bread_line_switch b k h = Some (true, b', h)
        ∧ line b' = line b
        ∧ cursor b' = - relpos b
        ∧ (relpos b = 0 → valid b').
Proof.
  intros [Hg Hgp Hp He Hi Hlo Hhi] Hk.
  eexists. split.
  { destruct Hk as [-> | ->]; reflexivity. }
  unfold cursor, start. simpl. rewrite to_int_small by lia.
  split_and!; [done|lia|].
  intros H0. constructor; simpl; lia.
Qed.

(** C3.  Move-to-start with an offset pending does not reach position 0:
    after [a], [b], move-left, move-to-start the cursor is at 1, where the
    string model has it at 0.  After [a], [b], move-to-start, [c],
    move-to-end, move-to-start it is at -2, in front of the line, and the
    next insertion moves bytes outside the block. *)
Theorem move_to_start_with_pending_offset :
  (∃ b, bread_line_loop linux (empty_buffer 64)
          (type_edits [Insert 97; Insert 98; MoveLeft; MoveToStart]) []
        = LoopBlocked b []
        ∧ cursor b = 1
        ∧ cur (model_run [Insert 97; Insert 98; MoveLeft; MoveToStart]) = 0%nat)
  ∧ (∃ b, bread_line_loop linux (empty_buffer 64)
            (type_edits [Insert 97; Insert 98; MoveToStart; Insert 99;
                         MoveToEnd; MoveToStart]) []
          = LoopBlocked b []
          ∧ cursor b = -2)
  ∧ bread_line linux
      (type_edits [Insert 97; Insert 98; MoveToStart; Insert 99;
                   MoveToEnd; MoveToStart; Insert 100] ++ [typed 10]) calm
    = Undefined.
Proof.
  split_and!.
  - eexists. split; [vm_compute; reflexivity|]. split; reflexivity.
  - eexists. split; [vm_compute; reflexivity|]. reflexivity.
  - vm_compute. reflexivity.
Qed.

(** C4.  Delete-all keeps the pending offset: after [a], move-left,
    delete-all the line is empty and the cursor is at -1, outside the line;
    a byte typed next is moved outside the block. *)
Theorem delete_all_keeps_pending_offset :
  (∃ b, bread_line_loop linux (empty_buffer 64)
          (type_edits [Insert 97; MoveLeft; DeleteAll]) []
        = LoopBlocked b []
        ∧ line b = []
        ∧ cursor b = -1
        ∧ ¬ (0 ≤ cursor b ≤ len (line b)))
  ∧ bread_line linux
      (type_edits [Insert 97; MoveLeft; DeleteAll; Insert 120] ++ [typed 10])
      calm
    = Undefined.
Proof.
  split.
  - eexists. split; [vm_compute; reflexivity|].
    split_and!; [reflexivity..|]. vm_compute. intros [H _]. by apply H.
  - vm_compute. reflexivity.
Qed.

(** ** The line against the string model *)

(** C1.  The line of the buffer and the line of the string model part ways:
    after [a], [b], move-to-start, move-to-start, [x] the session returns
    [abx], the string model holds [xab].  The second move-to-start subtracts
    the offset that the first one left pending and puts the cursor back at
    the end. *)
Theorem line_departs_from_model :
  (∃ w, bread_line linux
          (type_edits [Insert 97; Insert 98; MoveToStart; MoveToStart;
                       Insert 120] ++ [typed 10]) calm
        = Returned (Some [97; 98; 120]) w)
  ∧ (∃ b, bread_line_loop linux (empty_buffer 64)
            (type_edits [Insert 97; Insert 98; MoveToStart; MoveToStart;
                         Insert 120]) []
          = LoopBlocked b []
          ∧ pre_bytes b ++ post_bytes b = [97; 98; 120])
  ∧ text (model_run [Insert 97; Insert 98; MoveToStart; MoveToStart;
                     Insert 120])
    = [120; 97; 98].
Proof.
  split_and!.
  - eexists. vm_compute. reflexivity.
  - eexists. split; [vm_compute; reflexivity|]. reflexivity.
  - reflexivity.
Qed.

(** ** Growth *)

Lemma next_alloc_all_mem (h : heap) :
  all_mem h → ∃ junk h', next_alloc h = (Mem junk, h') ∧ all_mem h'.
Proof.
  intros Hh. destruct h as [|[|junk] h']; simpl.
  - by eexists _, _.
  - by inversion Hh.
  - eexists _, _. split; [done|]. by inversion Hh.
Qed.

(** With the cursor at the end of the line, one insertion appends the byte,
    whether or not the block has to grow. *)
Lemma buffer_insertch_at_end (b : buffer) (ch : Z) (h : heap) :
  valid b → cursor b = len (line b) → 0 < end_ b →
  2 * (len (line b) + 1) < 2 ^ 31 → all_mem h →
  ∃ b' h', buffer_insertch b ch h = Some (true, b', h')
           ∧ valid b'
           ∧ all_mem h'
           ∧ 0 < end_ b'
           ∧ cursor b' = len (line b')
           ∧ line b' = line b ++ [to_char ch].
Proof.
  intros Hv Hcur Hpos Hsmall Hh.
  pose proof (length_line b Hv) as Hlen.
  assert (Hat : ∀ l : list Z,
            take (Z.to_nat (len l)) l ++ to_char ch :: drop (Z.to_nat (len l)) l
            = l ++ [to_char ch]).
  { intros l. unfold len. rewrite Nat2Z.id.
    by rewrite take_ge, drop_ge by lia. }
  assert (Hlen' : ∀ l : list Z, len (l ++ [to_char ch]) = len l + 1).
  { intros l. unfold len. rewrite length_app. simpl. lia. }
  destruct (decide (gap b < post b)) as [Hroom|Hfull].
  - destruct (buffer_insertch_room b ch h Hv Hroom)
      as (b' & Hins & Hv' & H0 & He & Hc & Hl).
    exists b', h. rewrite Hcur, Hat in Hl.
    split_and!; try done; try lia.
    rewrite Hl, Hlen'. lia.
  - destruct (next_alloc_all_mem h Hh) as (junk & h' & Ha & Hh').
    pose proof (valid_gap_post b Hv).
    destruct (buffer_insertch_grow_at_end b ch h h' junk Hv)
      as (b' & Hins & Hv' & H0 & He & Hc & Hl); try done; try lia.
    exists b', h'.
    split_and!; try done; try lia.
    rewrite Hl, Hlen'. lia.
Qed.

(** Bytes inserted one at a time at the end of the line all arrive, in
    order, across any number of doublings of the block. *)
Lemma insert_all_at_end (l : list Z) :
  ∀ (b : buffer) (h : heap),
    valid b → cursor b = len (line b) → 0 < end_ b →
    2 * (len (line b) + len l) < 2 ^ 31 → all_mem h →
    ∃ b' h', insert_all b l h = Some (true, b', h')
             ∧ valid b'
             ∧ cursor b' = len (line b')
             ∧ line b' = line b ++ map to_char l.
Proof.
  induction l as [|ch l IH]; intros b h Hv Hcur Hpos Hsmall Hh.
  - exists b, h. simpl. by rewrite app_nil_r.
  - unfold len in Hsmall. simpl in Hsmall.
    destruct (buffer_insertch_at_end b ch h Hv Hcur Hpos)
      as (b1 & h1 & Hins & Hv1 & Hh1 & Hpos1 & Hcur1 & Hl1);
      [unfold len; lia|done|].
    destruct (IH b1 h1 Hv1 Hcur1 Hpos1) as (b' & h' & Hall & Hv' & Hcur' & Hl');
      [|done|].
    { rewrite Hl1. unfold len. rewrite length_app. simpl. lia. }
    exists b', h'. simpl. rewrite Hins.
    split_and!; try done.
    rewrite Hl', Hl1, <- app_assoc. done.
Qed.

(** Any 100 bytes inserted one at a time into the empty 64-byte buffer make
    up the line. *)
Lemma insert_100_bytes (l : list Z) :
  length l = 100%nat → Forall (λ c, 0 ≤ c < 256) l →
  ∃ b', insert_all (empty_buffer 64) l [] = Some (true, b', [])
        ∧ line b' = l.
Proof.
  intros Hlen Hbytes.
  destruct (insert_all_at_end l (empty_buffer 64) [])
    as (b' & h' & Hall & Hv' & Hcur' & Hl').
  - by apply valid_empty_buffer.
  - reflexivity.
  - reflexivity.
  - unfold len. rewrite Hlen. vm_compute. done.
  - constructor.
  - assert (Hid : map to_char l = l).
    { clear -Hbytes. induction Hbytes as [|c l Hc _ IH]; [done|].
      simpl. rewrite IH. f_equal. unfold to_char. by apply Z.mod_small. }
    rewrite Hid in Hl'. simpl in Hl'.
    assert (h' = []) as ->.
    { clear -Hall. revert Hall. generalize (empty_buffer 64).
      induction l as [|ch l IH]; intros b; simpl.
      - by intros [= _ <-].
      - destruct (buffer_insertch b ch []) as [[[[] b1] h1]|] eqn:Hins;
          try done.
        assert (h1 = []) as ->; [|by apply IH].
        unfold buffer_insertch in Hins.
        destruct (buffer_move_gap b) as [b2|]; simpl in Hins; [|done].
        destruct (gap b2 =? post b2); simpl in Hins.
        + destruct (store_at_gap _ _); simpl in Hins; congruence.
        + destruct (store_at_gap _ _); simpl in Hins; congruence. }
    by exists b'.
Qed.

(** C5.  Growth with bytes behind the cursor loses them: after 64 times [a],
    move-left, [b] the block has 128 bytes, [post] points behind its end,
    and the two runs spell 63 times [a] and [b] where the string model has
    one more [a]; the newline that follows makes [bread_line] copy from
    outside the block. *)
Theorem growth_behind_cursor_loses_bytes :
  (∃ b, bread_line_loop linux (empty_buffer 64)
          (type_edits (replicate 64 (Insert 97) ++ [MoveLeft; Insert 98])) []
        = LoopBlocked b []
        ∧ end_ b = 128
        ∧ post b = 129
        ∧ line b = replicate 63 97 ++ [98])
  ∧ text (model_run (replicate 64 (Insert 97) ++ [MoveLeft; Insert 98]))
    = replicate 63 97 ++ [98; 97]
  ∧ bread_line linux
      (type_edits (replicate 64 (Insert 97) ++ [MoveLeft; Insert 98])
       ++ [typed 10]) calm
    = Undefined.
Proof.
  split_and!.
  - eexists. split; [vm_compute; reflexivity|].
    split_and!; reflexivity.
  - vm_compute. reflexivity.
  - vm_compute. reflexivity.
Qed.

(** ** The terminal across a session *)

Lemma tcsetattr_log (t : termios) (w : world) :
  tcset_log (tcsetattr t w).2 = tcset_log w ++ [t]
  ∧ hp (tcsetattr t w).2 = hp w.
Proof. done. Qed.

(** Once the terminal is in raw mode, [bread_line] calls [restore_terminal]
    exactly when it returns a line: every return of [NULL] leaves the
    terminal as [setup_terminal] set it. *)
Lemma bread_line_restores (P : platform) (input : list read_call)
    (w w' : world) (old : termios) (l : option (list Z)) :
  tcgetattr w = Some old → hd true (tcset_script w) = true →
  bread_line P input w = Returned l w' →
  restores w w' = match l with Some _ => [old] | None => [] end
  ∧ (l = None → tty w' = Some (raw_of P old)).
Proof.
  intros Hget Hset. unfold bread_line, setup_terminal, restores.
  rewrite Hget. unfold tcsetattr at 1. rewrite Hset.
  set (w1 := {| tty := Some (raw_of P old) |}).
  assert (Hlog : ∀ h, drop (S (length (tcset_log w))) (tcset_log (set_heap w1 h)) = []).
  { intros h. simpl. rewrite drop_ge; [done|]. rewrite length_app. simpl. lia. }
  destruct (buffer_init _ _) as [[b0|] h2].
  - destruct (bread_line_loop _ _ _ _) as [|b h3|b h3|b h3]; try done.
    + intros [= <- <-]. split; [apply Hlog|done].
    + destruct (malloc _ _) as [[m|] h4].
      * destruct (copy_line b) as [lb|]; [|done].
        unfold restore_terminal, tcsetattr. simpl.
        destruct (hd true (tl (tcset_script w))); intros [= <- <-]; simpl.
        -- split; [|done].
           rewrite drop_app_ge by (rewrite length_app; simpl; lia).
           rewrite length_app. simpl.
           by replace (S (length (tcset_log w)) - (length (tcset_log w) + 1))%nat
             with 0%nat by lia.
        -- split; [|done].
           rewrite drop_app_ge by (rewrite length_app; simpl; lia).
           rewrite length_app. simpl.
           by replace (S (length (tcset_log w)) - (length (tcset_log w) + 1))%nat
             with 0%nat by lia.
      * intros [= <- <-]. split; [apply Hlog|done].
  - intros [= <- <-]. split; [apply Hlog|done].
Qed.

(** C2.  Three of the four exits behind a successful [setup_terminal] do not
    restore the terminal: a failed [buffer_init], a failed insertion and a
    failed allocation of the result each return [NULL] with the terminal
    still in raw mode and no second [tcsetattr] made.  The exit with a line
    restores it once. *)
Theorem failure_exits_leave_raw_mode :
  (∃ w, bread_line linux [typed 104; typed 10] (with_heap [NoMem])
        = Returned None w
        ∧ restores (with_heap [NoMem]) w = []
        ∧ tty w = Some (raw_of linux cooked)
        ∧ frees w = 0%nat)
  ∧ (∃ w, bread_line linux (type_edits (replicate 65 (Insert 97)))
            (with_heap [Mem (λ _, 0); NoMem])
          = Returned None w
          ∧ restores (with_heap [Mem (λ _, 0); NoMem]) w = []
          ∧ tty w = Some (raw_of linux cooked)
          ∧ frees w = 1%nat)
  ∧ (∃ w, bread_line linux [typed 104; typed 105; typed 10]
            (with_heap [Mem (λ _, 0); NoMem])
          = Returned None w
          ∧ restores (with_heap [Mem (λ _, 0); NoMem]) w = []
          ∧ tty w = Some (raw_of linux cooked)
          ∧ frees w = 1%nat)
  ∧ (∃ w, bread_line linux [typed 104; typed 105; typed 10] calm
          = Returned (Some [104; 105]) w
          ∧ restores calm w = [cooked]
          ∧ tty w = Some cooked).
Proof.
  split_and!;
    (eexists; split; [vm_compute; reflexivity|]; split_and!; reflexivity).
Qed.

(** C8.  A failed restore is not reported: where the [tcsetattr] of
    [restore_terminal] fails, [restore_terminal] returns [false] and
    [bread_line] returns the line all the same, with the terminal left in raw
    mode. *)
Theorem failed_restore_is_masked :
  ∃ w4 w,
    bread_line linux [typed 104; typed 105; typed 10] restore_fails
    = Returned (Some [104; 105]) w
    ∧ restore_terminal cooked w4 = (false, w)
    ∧ tty w = Some (raw_of linux cooked).
Proof.
  exists {| tty := Some (raw_of linux cooked); tcset_script := [false];
            tcset_log := [raw_of linux cooked]; hp := []; frees := 0 |}.
  eexists. split; [vm_compute; reflexivity|]. split; reflexivity.
Qed.

(** Whatever the outcome of the restore, the line returned is the same. *)
Lemma bread_line_ignores_restore (P : platform) (input : list read_call)
    (t : option termios) (log : list termios) (h : heap) (n : nat)
    (s s' : list bool) :
  ∀ l w,
    bread_line P input {| tty := t; tcset_script := true :: s;
                          tcset_log := log; hp := h; frees := n |}
    = Returned (Some l) w →
    ∃ w', bread_line P input {| tty := t; tcset_script := true :: s';
                                tcset_log := log; hp := h; frees := n |}
          = Returned (Some l) w'.
Proof.
  intros l w. unfold bread_line, setup_terminal, tcgetattr, tcsetattr. simpl.
  destruct t as [old|]; [|done]. simpl.
  destruct (buffer_init _ _) as [[b0|] h2]; [|done].
  destruct (bread_line_loop _ _ _ _) as [|b h3|b h3|b h3]; try done.
  destruct (malloc _ _) as [[m|] h4]; [|done].
  destruct (copy_line b) as [lb|]; [|done].
  unfold restore_terminal, tcsetattr. simpl.
  destruct (hd true s), (hd true s'); intros [= <- <-]; by eexists.
Qed.

(** ** The key decoder *)

Lemma char_to_int_ascii (P : platform) (c : Z) :
  0 ≤ c < 128 → char_to_int P c = c.
Proof.
  intros Hc. unfold char_to_int.
  destruct (Z.leb_spec 128 c); [lia|]. by rewrite andb_false_r.
Qed.

Lemma char_to_int_range (P : platform) (c : Z) :
  0 ≤ c < 256 → -128 ≤ char_to_int P c < 256.
Proof.
  intros Hc. unfold char_to_int.
  destruct (char_is_signed P), (Z.leb_spec 128 c); simpl; lia.
Qed.

(** A read of fewer than three bytes yields the first byte of the array. *)
Lemma getkey_short_read (P : platform) (r : read_call) (bs : list Z) :
  result r = ReadBytes bs → (length bs < 3)%nat →
  getkey P r = char_to_int P (nth 0 (bs ++ drop (length bs) (c_before r)) 0).
Proof.
  intros Hr Hn. unfold getkey. rewrite Hr.
  rewrite take_ge by lia.
  destruct (Z.ltb_spec (len bs) 3) as [_|Hge]; [done|].
  unfold len in Hge. lia.
Qed.

(** A byte that no case of the [switch] names is inserted. *)
Lemma bread_line_switch_default (b : buffer) (k : Z) (h : heap) :
  k ∉ [KEY_NOKEY; CTRL_KEY 98; KEY_LEFT; CTRL_KEY 102; KEY_RIGHT; KEY_UP;
       CTRL_KEY 97; KEY_DOWN; CTRL_KEY 101; CTRL_KEY 100; CTRL_KEY 117;
       CTRL_KEY 104; 127] →
  bread_line_switch b k h = buffer_insertch b k h.
Proof.
  intros Hk. unfold bread_line_switch.
  repeat match goal with
         | |- context [?x =? ?y] =>
             destruct (Z.eqb_spec x y) as [->|_];
             [exfalso; apply Hk; rewrite !elem_of_cons; tauto|]
         end.
  done.
Qed.

(** C7, as stated, fails: a read that delivers the two bytes ESC and [[]
    decodes to the key 27, not to [KEY_NOKEY]. *)
Lemma partial_escape_is_a_key :
  ¬ (∀ P r bs,
       result r = ReadBytes bs → (length bs < 3)%nat → head bs = Some 27 →
       getkey P r = KEY_NOKEY).
Proof.
  intros Hclaim.
  specialize (Hclaim linux (burst [27; 91]) [27; 91] eq_refl).
  vm_compute in Hclaim.
  specialize (Hclaim (le_n 3) eq_refl). discriminate Hclaim.
Qed.

(** C7, amended.  A read of fewer than three bytes that starts with ESC
    decodes to the key 27, which is not [KEY_NOKEY]; the edit loop hands
    that key to [buffer_insertch] exactly as it does the typed byte 27, and
    on a well-formed buffer whose gap has room the byte 27 goes into the line
    at the cursor. *)
Theorem getkey_partial_escape (P : platform) (r : read_call) (bs : list Z) :
  result r = ReadBytes bs → (length bs < 3)%nat → head bs = Some 27 →
  getkey P r = 27
  ∧ getkey P r ≠ KEY_NOKEY
  ∧ (∀ b h, bread_line_switch b (getkey P r) h = buffer_insertch b 27 h)
  ∧ (∀ b input h,
       bread_line_loop P b (r :: input) h
       = bread_line_loop P b (typed 27 :: input) h)
  ∧ ∀ b h, valid b → gap b < post b →
      ∃ b', bread_line_switch b (getkey P r) h = Some (true, b', h)
            ∧ valid b'
            ∧ cursor b' = cursor b + 1
            ∧ line b' = take (Z.to_nat (cursor b)) (line b)
                        ++ 27 :: drop (Z.to_nat (cursor b)) (line b).
Proof.
  intros Hr Hn Hesc.
  assert (Hk : getkey P r = 27).
  { rewrite (getkey_short_read P r bs Hr Hn).
    destruct bs as [|c0 bs']; simplify_eq/=.
    by apply char_to_int_ascii. }
  assert (Hsw : ∀ b h, bread_line_switch b 27 h = buffer_insertch b 27 h).
  { intros b h. apply bread_line_switch_default.
    rewrite !not_elem_of_cons.
    unfold KEY_NOKEY, KEY_LEFT, KEY_RIGHT, KEY_UP, KEY_DOWN, CTRL_KEY.
    split_and!; try lia. apply not_elem_of_nil. }
  rewrite Hk. split_and!; [done|done|done| |].
  - intros b input h. simpl.
    assert (Ht : getkey P (typed 27) = 27) by (by apply char_to_int_ascii).
    by rewrite Hk, Ht.
  - intros b h Hv Hroom. rewrite Hsw.
    destruct (buffer_insertch_room b 27 h Hv Hroom)
      as (b' & Hins & Hv' & _ & _ & Hc & Hl).
    by exists b'.
Qed.

Lemma getkey_partial_escape_witness :
  getkey linux (burst [27; 91]) = 27
  ∧ ∃ b', bread_line_switch (empty_buffer 64) (getkey linux (burst [27; 91])) []
          = Some (true, b', [])
          ∧ line b' = [27].
Proof.
  destruct (getkey_partial_escape linux (burst [27; 91]) [27; 91] eq_refl)
    as (Hk & _ & _ & _ & Hins); [vm_compute; lia|reflexivity|].
  split; [exact Hk|].
  destruct (Hins (empty_buffer 64) []) as (b' & Hsw & _ & _ & Hl);
    [valid_by_computation|vm_compute; reflexivity|].
  exists b'. split; [exact Hsw|exact Hl].
Defined.

(** C10, as stated, fails: where the first byte of the unwritten array is
    the newline, the read at the end of the input ends the loop, and
    [bread_line] returns the line typed so far. *)
Lemma end_of_input_can_submit :
  ¬ (∀ P c b input h,
       bread_line_loop P b (end_of_input c :: input) h ≠ LoopSubmit b h)
  ∧ ∃ w, bread_line linux [typed 104; end_of_input [10; 0; 0]] calm
         = Returned (Some [104]) w.
Proof.
  split.
  - intros Hclaim.
    by apply (Hclaim linux [10; 0; 0] (empty_buffer 64) [] []).
  - eexists. vm_compute. reflexivity.
Qed.

(** C10, amended.  At the end of the input [getkey] returns the first byte
    of its unwritten array [c], which is any byte and not [KEY_NOKEY]; the
    edit loop goes on exactly as if that byte had been typed.  The read is
    not skipped; it ends the loop when that byte is the newline (the line is
    submitted), and otherwise the [switch] takes its turn with that byte
    (the loop then ends only if the insertion fails). *)
Theorem getkey_end_of_input (P : platform) (c : list Z) :
  getkey P (end_of_input c) = char_to_int P (nth 0 c 0)
  ∧ getkey P (end_of_input c) = getkey P (typed (nth 0 c 0))
  ∧ (0 ≤ nth 0 c 0 < 256 → getkey P (end_of_input c) ≠ KEY_NOKEY)
  ∧ (∀ b input h,
       bread_line_loop P b (end_of_input c :: input) h
       = bread_line_loop P b (typed (nth 0 c 0) :: input) h)
  ∧ (∀ b input h,
       char_to_int P (nth 0 c 0) = 10 →
       bread_line_loop P b (end_of_input c :: input) h = LoopSubmit b h)
  ∧ (∀ b input h,
       char_to_int P (nth 0 c 0) ≠ 10 →
       bread_line_loop P b (end_of_input c :: input) h
       = match bread_line_switch b (char_to_int P (nth 0 c 0)) h with
         | None => LoopUndefined
         | Some (false, b', h') => LoopNoMem b' h'
         | Some (true, b', h') => bread_line_loop P b' input h'
         end).
Proof.
  assert (Hk : getkey P (end_of_input c) = char_to_int P (nth 0 c 0)) by done.
  assert (Ht : getkey P (typed (nth 0 c 0)) = char_to_int P (nth 0 c 0)) by done.
  split_and!.
  - done.
  - by rewrite Hk, Ht.
  - intros Hc. rewrite Hk. pose proof (char_to_int_range P _ Hc).
    unfold KEY_NOKEY. lia.
  - intros b input h. simpl. by rewrite Hk, Ht.
  - intros b input h Hnl. simpl. by rewrite Hk, Hnl.
  - intros b input h Hnl. simpl. rewrite Hk.
    by destruct (Z.eqb_spec (char_to_int P (nth 0 c 0)) 10).
Qed.

Lemma getkey_end_of_input_witness :
  getkey linux (end_of_input [0; 0; 0]) ≠ KEY_NOKEY
  ∧ bread_line_loop linux (empty_buffer 64) [end_of_input [10; 0; 0]] []
    = LoopSubmit (empty_buffer 64) []
  ∧ ∃ b', bread_line_loop linux (empty_buffer 64)
            [end_of_input [0; 0; 0]; end_of_input [0; 0; 0]] []
          = LoopBlocked b' []
          ∧ line b' = [0; 0].
Proof.
  destruct (getkey_end_of_input linux [0; 0; 0])
    as (_ & _ & Hno & _ & _ & Hloop).
  destruct (getkey_end_of_input linux [10; 0; 0])
    as (_ & _ & _ & _ & Hsub & _).
  split; [|split].
  - apply Hno. vm_compute. split; congruence.
  - apply Hsub. reflexivity.
  - rewrite Hloop by (vm_compute; congruence).
    eexists. split; reflexivity.
Defined.

(** ** Deletion *)

Lemma buffer_delete_forwards_valid (b : buffer) :
  valid b →
  ∃ b', buffer_delete_forwards b = Some b'
        ∧ valid b'
        ∧ relpos b' = 0
        ∧ cursor b' = cursor b
        ∧ line b' = take (Z.to_nat (cursor b)) (line b)
                    ++ drop (S (Z.to_nat (cursor b))) (line b).
Proof.
  intros Hv.
  destruct (buffer_move_gap_valid b Hv)
    as (b1 & Hmv & Hv1 & H0 & Hg1 & Hw & He & Hl).
  destruct (runs_at_rest b1 Hv1 H0) as [Hpre Hpost].
  assert (Hc : cursor b1 = cursor b) by (unfold cursor in *; lia).
  rewrite Hc, Hl in Hpre, Hpost.
  unfold buffer_delete_forwards. rewrite Hmv. simpl.
  eexists. split; [done|].
  destruct Hv1 as [Hg Hgp Hp Hend Hi Hlo Hhi]. unfold len in Hend.
  destruct (Z.ltb_spec (post b1) (end_ b1)) as [Hlt|Hge].
  - split_and!.
    + constructor; simpl; unfold len; lia.
    + done.
    + unfold cursor in *. simpl. lia.
    + unfold line, pre_bytes, post_bytes in *; simpl. rewrite Hpre.
      f_equal.
      replace (Z.to_nat (post b1 + 1)) with (Z.to_nat (post b1) + 1)%nat by lia.
      rewrite <- drop_drop, Hpost, drop_drop. f_equal. lia.
  - split_and!.
    + by constructor.
    + done.
    + done.
    + unfold line at 1. rewrite Hpre. f_equal.
      assert (Hempty : post_bytes b1 = []).
      { unfold post_bytes. apply drop_ge. lia. }
      assert (Hlen : length (drop (Z.to_nat (cursor b)) (line b)) = 0%nat)
        by (by rewrite <- Hpost, Hempty).
      rewrite length_drop in Hlen.
      rewrite Hempty. symmetry. apply drop_ge. lia.
Qed.

Lemma buffer_delete_backwards_valid (b : buffer) :
  valid b →
  ∃ b', buffer_delete_backwards b = Some b'
        ∧ valid b'
        ∧ relpos b' = 0
        ∧ cursor b' = Z.of_nat (Nat.pred (Z.to_nat (cursor b)))
        ∧ line b' = take (Nat.pred (Z.to_nat (cursor b))) (line b)
                    ++ drop (Z.to_nat (cursor b)) (line b).
Proof.
  intros Hv.
  destruct (buffer_move_gap_valid b Hv)
    as (b1 & Hmv & Hv1 & H0 & Hg1 & Hw & He & Hl).
  destruct (runs_at_rest b1 Hv1 H0) as [Hpre Hpost].
  assert (Hc : cursor b1 = cursor b) by (unfold cursor in *; lia).
  rewrite Hc, Hl in Hpre, Hpost.
  unfold buffer_delete_backwards, start. rewrite Hmv. simpl.
  eexists. split; [done|].
  destruct Hv1 as [Hg Hgp Hp Hend Hi Hlo Hhi]. unfold len in Hend.
  destruct (Z.ltb_spec 0 (gap b1)) as [Hlt|Hge].
  - split_and!.
    + constructor; simpl; unfold len; lia.
    + done.
    + unfold cursor in *. simpl. lia.
    + unfold line, pre_bytes, post_bytes in *; simpl. rewrite Hpost.
      f_equal.
      replace (Z.to_nat (gap b1 - 1)) with
        (Nat.pred (Z.to_nat (cursor b)) `min` Z.to_nat (gap b1))%nat by lia.
      rewrite <- take_take, Hpre, take_take. f_equal. lia.
  - assert (Hz : Z.to_nat (cursor b) = 0%nat) by lia.
    split_and!.
    + by constructor.
    + done.
    + unfold cursor in *. lia.
    + rewrite Hz. simpl. by rewrite drop_0.
Qed.

(** ** The edit loop against the string model *)

Lemma getkey_typed (P : platform) (k : Z) :
  getkey P (typed k) = char_to_int P k.
Proof. reflexivity. Qed.

(** A plain byte reaches the [switch] as a key that no case names, and is
    stored as itself. *)
Lemma plain_key (P : platform) (c : Z) :
  plain c →
  to_char (char_to_int P c) = c
  ∧ char_to_int P c ≠ 10
  ∧ char_to_int P c ∉
      [KEY_NOKEY; CTRL_KEY 98; KEY_LEFT; CTRL_KEY 102; KEY_RIGHT; KEY_UP;
       CTRL_KEY 97; KEY_DOWN; CTRL_KEY 101; CTRL_KEY 100; CTRL_KEY 117;
       CTRL_KEY 104; 127].
Proof.
  intros [Hc Hfree]. rewrite !not_elem_of_cons in Hfree.
  destruct Hfree as (? & ? & ? & ? & ? & ? & ? & ? & ? & _).
  rewrite !not_elem_of_cons.
  unfold char_to_int, to_char, KEY_NOKEY, KEY_LEFT, KEY_RIGHT, KEY_UP,
    KEY_DOWN, CTRL_KEY.
  destruct (char_is_signed P), (Z.leb_spec 128 c); simpl.
  - split_and!; try lia; [|apply not_elem_of_nil].
    symmetry. apply (Z.mod_unique_pos _ _ (-1)); lia.
  - split_and!; try lia; [|apply not_elem_of_nil]. by apply Z.mod_small.
  - split_and!; try lia; [|apply not_elem_of_nil]. by apply Z.mod_small.
  - split_and!; try lia; [|apply not_elem_of_nil]. by apply Z.mod_small.
Qed.

(** One turn of the loop carries out the edit of the string model, from
    every state that is [clear] for it. *)
Lemma switch_refines (P : platform) (b : buffer) (e : edit) (h : heap) :
  valid b → all_mem h → clear b e →
  getkey P (typed (key_of_edit e)) ≠ 10
  ∧ ∃ b' h',
      bread_line_switch b (getkey P (typed (key_of_edit e))) h
      = Some (true, b', h')
      ∧ valid b'
      ∧ all_mem h'
      ∧ model_of b' = model_apply (model_of b) e.
Proof.
  intros Hv Hh Hclear. rewrite getkey_typed.
  pose proof (valid_cursor_bounds b Hv) as Hcb.
  destruct e as [c| | | | | | |]; simpl in Hclear |- *;
    try (rewrite char_to_int_ascii by (vm_compute; split; congruence));
    try (split; [vm_compute; congruence|]).
  - (* Insert *)
    destruct Hclear as [Hplain Hwhere].
    destruct (plain_key P c Hplain) as (Hch & Hnl & Hfree).
    split; [done|].
    rewrite bread_line_switch_default by done.
    destruct (decide (gap b < post b)) as [Hroom|Hfull].
    + destruct (buffer_insertch_room b (char_to_int P c) h Hv Hroom)
        as (b' & Hins & Hv' & H0 & He & Hc & Hl).
      exists b', h. split_and!; try done.
      unfold model_of. rewrite Hl, Hc, Hch. f_equal. lia.
    + destruct Hwhere as [?|(Hend & Hpos & Hsmall)]; [lia|].
      destruct (next_alloc_all_mem h Hh) as (junk & h' & Ha & Hh').
      pose proof (valid_gap_post b Hv).
      pose proof (length_line b Hv) as Hlen.
      destruct (buffer_insertch_grow_at_end b (char_to_int P c) h h' junk Hv)
        as (b' & Hins & Hv' & H0 & He & Hc & Hl); try done; try lia.
      exists b', h'. split_and!; try done.
      unfold model_of. rewrite Hl, Hc, Hch, Hend. simpl.
      unfold len. rewrite Nat2Z.id.
      rewrite take_ge, drop_ge by lia. f_equal. lia.
  - (* MoveLeft *)
    destruct (buffer_backwards_valid b Hv) as (Hv' & Hl & Hc).
    exists (buffer_backwards b), h. split_and!; try done.
    unfold model_of. rewrite Hl, Hc. simpl. f_equal.
    case_bool_decide; lia.
  - (* MoveRight *)
    destruct (buffer_forwards_valid b Hv) as (Hv' & Hl & Hc).
    exists (buffer_forwards b), h. split_and!; try done.
    unfold model_of. rewrite Hl, Hc. simpl. f_equal.
    unfold len in *.
    destruct (Nat.ltb_spec (Z.to_nat (cursor b)) (length (line b)));
      case_bool_decide; lia.
  - (* MoveToStart *)
    destruct (move_to_start_cursor b (CTRL_KEY 97) h Hv)
      as (b' & Hsw & Hl & Hc & Hv'); [by right|].
    exists b', h. split_and!; try done; [by apply Hv'|].
    unfold model_of. rewrite Hl, Hc, Hclear. done.
  - (* MoveToEnd *)
    destruct (move_to_end_cursor b (CTRL_KEY 101) h Hv)
      as (b' & Hsw & Hv' & Hl & Hc); [by right|].
    exists b', h. split_and!; try done.
    unfold model_of. rewrite Hl, Hc. simpl. f_equal.
    unfold len. lia.
  - (* DeleteForward *)
    destruct (buffer_delete_forwards_valid b Hv)
      as (b' & Hdel & Hv' & H0 & Hc & Hl).
    exists b', h. split.
    { change (bread_line_switch b (CTRL_KEY 100) h)
        with (buffer_delete_forwards b ≫= λ b', Some (true, b', h)).
      by rewrite Hdel. }
    split_and!; try done.
    unfold model_of. by rewrite Hl, Hc.
  - (* DeleteBackward *)
    destruct (buffer_delete_backwards_valid b Hv)
      as (b' & Hdel & Hv' & H0 & Hc & Hl).
    exists b', h. split.
    { change (bread_line_switch b (CTRL_KEY 104) h)
        with (buffer_delete_backwards b ≫= λ b', Some (true, b', h)).
      by rewrite Hdel. }
    split_and!; try done.
    unfold model_of. rewrite Hl, Hc. simpl. f_equal. lia.
  - (* DeleteAll *)
    destruct Hv as [Hg Hgp Hp He Hi Hlo Hhi].
    eexists _, h. split; [reflexivity|].
    split_and!; try done.
    + constructor; simpl; unfold start; lia.
    + unfold model_of, model_empty, line, pre_bytes, post_bytes, cursor, start.
      simpl. rewrite Hclear. f_equal.
      apply drop_ge. unfold len in He. lia.
Qed.

(** A run of edits, each from a clear state, leaves the buffer standing for
    the line that the string model reaches by the same edits. *)
Theorem loop_refines (P : platform) (es : list edit) :
  ∀ (b : buffer) (h : heap),
    valid b → all_mem h → clear_run P b es h →
    ∃ b' h',
      bread_line_loop P b (type_edits es) h = LoopBlocked b' h'
      ∧ valid b'
      ∧ model_of b' = foldl model_apply (model_of b) es.
Proof.
  induction es as [|e es IH]; intros b h Hv Hh Hrun.
  - by exists b, h.
  - destruct Hrun as [Hclear Hrest].
    destruct (switch_refines P b e h Hv Hh Hclear)
      as (Hnl & b1 & h1 & Hsw & Hv1 & Hh1 & Hm).
    destruct (IH b1 h1 Hv1 Hh1 (Hrest b1 h1 Hsw)) as (b' & h' & Hloop & Hv' & Hm').
    rewrite Hm in Hm'.
    exists b', h'. simpl.
    destruct (Z.eqb_spec (getkey P (typed (key_of_edit e))) 10) as [?|_];
      [done|].
    by rewrite Hsw.
Qed.

(** From the empty buffer of a new session: the two runs spell the text of
    the string model, and the cursor is inside the line. *)
Corollary session_refines (P : platform) (es : list edit) :
  clear_run P (empty_buffer 64) es [] →
  ∃ b' h',
    bread_line_loop P (empty_buffer 64) (type_edits es) [] = LoopBlocked b' h'
    ∧ pre_bytes b' ++ post_bytes b' = text (model_run es)
    ∧ 0 ≤ cursor b' ≤ len (line b').
Proof.
  intros Hrun.
  destruct (loop_refines P es (empty_buffer 64) [])
    as (b' & h' & Hloop & Hv' & Hm);
    [by apply valid_empty_buffer|constructor|done|].
  exists b', h'. split; [done|]. split; [|by apply valid_cursor_bounds].
  change (pre_bytes b' ++ post_bytes b') with (text (model_of b')).
  by rewrite Hm.
Qed.

(** The scenarios of the specification, run through [bread_line]. *)
Example scenario_hi :
  ∃ w, bread_line linux (type_edits [Insert 104; Insert 105] ++ [typed 10]) calm
       = Returned (Some [104; 105]) w.
Proof. eexists. vm_compute. reflexivity. Qed.

Example scenario_hxi :
  ∃ w, bread_line linux
         (type_edits [Insert 104; Insert 105; MoveLeft; Insert 120]
          ++ [typed 10]) calm
       = Returned (Some [104; 120; 105]) w.
Proof. eexists. vm_compute. reflexivity. Qed.

Example scenario_delete_backward :
  ∃ w, bread_line linux
         (type_edits [Insert 97; Insert 98; Insert 99; DeleteBackward]
          ++ [typed 10]) calm
       = Returned (Some [97; 98]) w.
Proof. eexists. vm_compute. reflexivity. Qed.

Example scenario_delete_forward :
  ∃ w, bread_line linux
         (type_edits [Insert 97; Insert 98; MoveToStart; DeleteForward]
          ++ [typed 10]) calm
       = Returned (Some [98]) w.
Proof. eexists. vm_compute. reflexivity. Qed.

Example scenario_delete_all :
  ∃ w, bread_line linux
         (type_edits [Insert 120; Insert 121; Insert 122; DeleteAll; Insert 113]
          ++ [typed 10]) calm
       = Returned (Some [113]) w.
Proof. eexists. vm_compute. reflexivity. Qed.

Lemma plain_letter (c : Z) : 32 ≤ c < 127 → plain c.
Proof.
  intros Hc. split; [lia|].
  rewrite !not_elem_of_cons. split_and!; try lia. apply not_elem_of_nil.
Qed.

(** A run that is clear at every step, and what [session_refines] gives
    for it. *)
Example clear_run_hxi :
  clear_run linux (empty_buffer 64)
    [Insert 104; Insert 105; MoveLeft; Insert 120] [].
Proof.
  simpl.
  repeat match goal with
         | |- _ ∧ _ => split
         | |- plain _ => apply plain_letter; lia
         | |- _ ∨ _ => left; vm_compute; reflexivity
         | |- ∀ _ _, _ → _ =>
             let H := fresh in
             intros ? ? H; vm_compute in H; injection H as <- <-
         | |- True => exact I
         end.
Qed.

Example session_refines_hxi :
  ∃ b' h',
    bread_line_loop linux (empty_buffer 64)
      (type_edits [Insert 104; Insert 105; MoveLeft; Insert 120]) []
    = LoopBlocked b' h'
    ∧ pre_bytes b' ++ post_bytes b' = [104; 120; 105].
Proof.
  destruct (session_refines linux _ clear_run_hxi) as (b' & h' & Hloop & Hl & _).
  by exists b', h'.
Qed.

(** * Further properties of the code *)

(** ** The gap buffer *)

(** X1.  On a well-formed buffer [buffer_move_gap] is defined and moves the
    gap to the cursor: the line, the cursor and the block size are kept, no
    offset is left pending, and the two runs are the line cut at the
    cursor. *)
Theorem move_gap_to_cursor (b : buffer) :
  valid b →
  ∃ b', buffer_move_gap b = Some b'
        ∧ valid b'
        ∧ relpos b' = 0
        ∧ gap b' = cursor b
        ∧ end_ b' = end_ b
        ∧ line b' = line b
        ∧ pre_bytes b' = take (Z.to_nat (cursor b)) (line b)
        ∧ post_bytes b' = drop (Z.to_nat (cursor b)) (line b).
Proof.
  intros Hv.
  destruct (buffer_move_gap_valid b Hv)
    as (b' & Hmv & Hv' & H0 & Hg & Hw & He & Hl).
  destruct (runs_at_rest b' Hv' H0) as [Hpre Hpost].
  assert (Hc : cursor b' = cursor b) by (unfold cursor in *; lia).
  rewrite Hc, Hl in Hpre, Hpost.
  by exists b'.
Qed.

Lemma move_gap_to_cursor_witness :
  ∃ b', buffer_move_gap hi_left = Some b'
        ∧ pre_bytes b' = [104]
        ∧ post_bytes b' = [105].
Proof.
  destruct (move_gap_to_cursor hi_left)
    as (b' & Hmv & _ & _ & _ & _ & _ & Hpre & Hpost);
    [valid_by_computation|].
  exists b'. split; [exact Hmv|]. split; [exact Hpre|exact Hpost].
Defined.

(** X2.  Where the gap has room, [buffer_insertch] succeeds without a call
    of [realloc]: the byte, cut to eight bits, goes into the line at the
    cursor and the cursor moves behind it. *)
Theorem insert_with_room (b : buffer) (ch : Z) (h : heap) :
  valid b → gap b < post b →
  ∃ b', buffer_insertch b ch h = Some (true, b', h)
        ∧ valid b'
        ∧ end_ b' = end_ b
        ∧ cursor b' = cursor b + 1
        ∧ line b' = take (Z.to_nat (cursor b)) (line b)
                    ++ to_char ch :: drop (Z.to_nat (cursor b)) (line b).
Proof.
  intros Hv Hroom.
  destruct (buffer_insertch_room b ch h Hv Hroom)
    as (b' & Hins & Hv' & _ & He & Hc & Hl).
  by exists b'.
Qed.

Lemma insert_with_room_witness :
  ∃ b', buffer_insertch hi_left 120 [NoMem] = Some (true, b', [NoMem])
        ∧ line b' = [104; 120; 105].
Proof.
  destruct (insert_with_room hi_left 120 [NoMem])
    as (b' & Hins & _ & _ & _ & Hl);
    [valid_by_computation|vm_compute; reflexivity|].
  exists b'. split; [exact Hins|exact Hl].
Defined.

(** X3.  Where the gap is used up and the cursor is at the end of the line,
    [buffer_insertch] asks [realloc] for twice the block and, when that
    succeeds, appends the byte: what was in the line stays in front of
    it. *)
Theorem insert_grows_at_end (b : buffer) (ch : Z) (h h' : heap) junk :
  valid b → gap b = post b → cursor b = end_ b →
  0 < end_ b → 2 * end_ b < 2 ^ 31 →
  next_alloc h = (Mem junk, h') →
  ∃ b', buffer_insertch b ch h = Some (true, b', h')
        ∧ valid b'
        ∧ end_ b' = 2 * end_ b
        ∧ cursor b' = cursor b + 1
        ∧ line b' = line b ++ [to_char ch].
Proof.
  intros Hv Hfull Hcur Hpos Hsmall Ha.
  destruct (buffer_insertch_grow_at_end b ch h h' junk Hv Hfull Hcur Hpos
              Hsmall Ha) as (b' & Hins & Hv' & _ & He & Hc & Hl).
  by exists b'.
Qed.

Lemma insert_grows_at_end_witness :
  ∃ b', buffer_insertch full 98 [Mem (λ _, 7)] = Some (true, b', [])
        ∧ end_ b' = 128
        ∧ line b' = replicate 64 97 ++ [98].
Proof.
  destruct (insert_grows_at_end full 98 [Mem (λ _, 7)] [] (λ _, 7))
    as (b' & Hins & _ & He & _ & Hl);
    [valid_by_computation|reflexivity|reflexivity|vm_compute; reflexivity
    |vm_compute; reflexivity|reflexivity|].
  exists b'. split; [exact Hins|]. split; [exact He|exact Hl].
Defined.

(** X4.  Bytes inserted one after the other at the end of the line all
    arrive, in order and behind what the line held, across any number of
    doublings of the block, as long as no allocation fails and twice the
    final length fits an [int]. *)
Theorem insert_many_at_end (l : list Z) (b : buffer) (h : heap) :
  valid b → cursor b = len (line b) → 0 < end_ b →
  2 * (len (line b) + len l) < 2 ^ 31 → all_mem h →
  ∃ b' h', insert_all b l h = Some (true, b', h')
           ∧ valid b'
           ∧ cursor b' = len (line b')
           ∧ line b' = line b ++ map to_char l.
Proof. apply insert_all_at_end. Qed.

Lemma insert_many_at_end_witness :
  ∃ b' h', insert_all full (replicate 200 98) [] = Some (true, b', h')
           ∧ line b' = replicate 64 97 ++ replicate 200 98.
Proof.
  destruct (insert_many_at_end (replicate 200 98) full [])
    as (b' & h' & Hall & _ & _ & Hl);
    [valid_by_computation|reflexivity|vm_compute; reflexivity
    |vm_compute; reflexivity|constructor|].
  exists b', h'. split; [exact Hall|exact Hl].
Defined.

(** X5.  On a well-formed buffer [buffer_delete_forwards] removes the byte
    behind the cursor and keeps the cursor; with the cursor at the end of
    the line it keeps the line. *)
Theorem delete_forwards_at_cursor (b : buffer) :
  valid b →
  ∃ b', buffer_delete_forwards b = Some b'
        ∧ valid b'
        ∧ relpos b' = 0
        ∧ cursor b' = cursor b
        ∧ line b' = take (Z.to_nat (cursor b)) (line b)
                    ++ drop (S (Z.to_nat (cursor b))) (line b)
        ∧ (cursor b = len (line b) → line b' = line b).
Proof.
  intros Hv.
  destruct (buffer_delete_forwards_valid b Hv)
    as (b' & Hdel & Hv' & H0 & Hc & Hl).
  exists b'. split_and!; [done..|].
  intros Hend. rewrite Hl, Hend. unfold len. rewrite Nat2Z.id.
  by rewrite take_ge, drop_ge, app_nil_r by lia.
Qed.

Lemma delete_forwards_at_cursor_witness :
  ∃ b', buffer_delete_forwards hi_left = Some b' ∧ line b' = [104].
Proof.
  destruct (delete_forwards_at_cursor hi_left)
    as (b' & Hdel & _ & _ & _ & Hl & _); [valid_by_computation|].
  exists b'. split; [exact Hdel|exact Hl].
Defined.

(** X6.  On a well-formed buffer [buffer_delete_backwards] removes the byte
    in front of the cursor and moves the cursor onto its place; with the
    cursor at 0 it keeps the line. *)
Theorem delete_backwards_at_cursor (b : buffer) :
  valid b →
  ∃ b', buffer_delete_backwards b = Some b'
        ∧ valid b'
        ∧ relpos b' = 0
        ∧ cursor b' = Z.of_nat (Nat.pred (Z.to_nat (cursor b)))
        ∧ line b' = take (Nat.pred (Z.to_nat (cursor b))) (line b)
                    ++ drop (Z.to_nat (cursor b)) (line b)
        ∧ (cursor b = 0 → line b' = line b).
Proof.
  intros Hv.
  destruct (buffer_delete_backwards_valid b Hv)
    as (b' & Hdel & Hv' & H0 & Hc & Hl).
  exists b'. split_and!; [done..|].
  intros Hz. rewrite Hl, Hz. simpl. by rewrite drop_0.
Qed.

Lemma delete_backwards_at_cursor_witness :
  ∃ b', buffer_delete_backwards hi_left = Some b' ∧ line b' = [105].
Proof.
  destruct (delete_backwards_at_cursor hi_left)
    as (b' & Hdel & _ & _ & _ & Hl & _); [valid_by_computation|].
  exists b'. split; [exact Hdel|exact Hl].
Defined.

(** X7.  [buffer_forwards] moves the cursor of a well-formed buffer one
    byte to the right, and not at all at the end of the line; it keeps the
    buffer well-formed and touches neither the block nor the gap. *)
Theorem forwards_steps_right (b : buffer) :
  valid b →
  valid (buffer_forwards b)
  ∧ mem (buffer_forwards b) = mem b
  ∧ gap (buffer_forwards b) = gap b
  ∧ post (buffer_forwards b) = post b
  ∧ cursor (buffer_forwards b)
    = (if bool_decide (cursor b < len (line b)) then cursor b + 1 else cursor b).
Proof.
  intros Hv. destruct (buffer_forwards_valid b Hv) as (Hv' & _ & Hc).
  split_and!; try done; unfold buffer_forwards; by destruct (_ <? _).
Qed.

Lemma forwards_steps_right_witness :
  cursor (buffer_forwards hi_left) = 2
  ∧ cursor (buffer_forwards (buffer_forwards hi_left)) = 2.
Proof.
  assert (Hv : valid hi_left) by valid_by_computation.
  destruct (forwards_steps_right hi_left Hv) as (Hv1 & _ & _ & _ & Hc1).
  destruct (forwards_steps_right _ Hv1) as (_ & _ & _ & _ & Hc2).
  split; [exact Hc1|exact Hc2].
Defined.

(** X8.  [buffer_backwards] moves the cursor of a well-formed buffer one
    byte to the left, and not at all at the start of the line; it keeps the
    buffer well-formed and touches neither the block nor the gap. *)
Theorem backwards_steps_left (b : buffer) :
  valid b →
  valid (buffer_backwards b)
  ∧ mem (buffer_backwards b) = mem b
  ∧ gap (buffer_backwards b) = gap b
  ∧ post (buffer_backwards b) = post b
  ∧ cursor (buffer_backwards b)
    = (if bool_decide (0 < cursor b) then cursor b - 1 else cursor b).
Proof.
  intros Hv. destruct (buffer_backwards_valid b Hv) as (Hv' & _ & Hc).
  split_and!; try done; unfold buffer_backwards; by destruct (_ <? _).
Qed.

Lemma backwards_steps_left_witness :
  cursor (buffer_backwards hi_left) = 0
  ∧ cursor (buffer_backwards (buffer_backwards hi_left)) = 0.
Proof.
  assert (Hv : valid hi_left) by valid_by_computation.
  destruct (backwards_steps_left hi_left Hv) as (Hv1 & _ & _ & _ & Hc1).
  destruct (backwards_steps_left _ Hv1) as (_ & _ & _ & _ & Hc2).
  split; [exact Hc1|exact Hc2].
Defined.

Lemma buffer_eta (b : buffer) (r : Z) :
  r = relpos b →
  {| mem := mem b; gap := gap b; post := post b; end_ := end_ b; relpos := r |}
  = b.
Proof. intros ->. by destruct b. Qed.

(** X9.  A step to the left followed by a step to the right gives back the
    very same buffer unless the cursor was at the start of the line, and a
    step to the right followed by a step to the left does unless the cursor
    was at the end. *)
Theorem steps_cancel (b : buffer) :
  valid b →
  (0 < cursor b → buffer_forwards (buffer_backwards b) = b)
  ∧ (cursor b < len (line b) → buffer_backwards (buffer_forwards b) = b).
Proof.
  intros Hv. pose proof (length_line b Hv) as Hlen.
  destruct Hv as [Hg Hgp Hp He Hi Hlo Hhi].
  unfold cursor, buffer_forwards, buffer_backwards, start. split; intros Hc.
  - destruct (Z.ltb_spec 0 (gap b + relpos b)); [|lia]. simpl.
    rewrite (to_int_small (relpos b - 1)) by lia.
    destruct (Z.ltb_spec (post b + (relpos b - 1)) (end_ b)); [|lia]. simpl.
    apply buffer_eta. rewrite to_int_small by lia. lia.
  - destruct (Z.ltb_spec (post b + relpos b) (end_ b)); [|lia]. simpl.
    rewrite (to_int_small (relpos b + 1)) by lia.
    destruct (Z.ltb_spec 0 (gap b + (relpos b + 1))); [|lia]. simpl.
    apply buffer_eta. rewrite to_int_small by lia. lia.
Qed.

Lemma steps_cancel_witness :
  buffer_forwards (buffer_backwards hi_left) = hi_left
  ∧ buffer_backwards (buffer_forwards hi_left) = hi_left.
Proof.
  destruct (steps_cancel hi_left) as [Hl Hr]; [valid_by_computation|].
  split; [apply Hl|apply Hr]; vm_compute; reflexivity.
Defined.

(** X10.  Inserting a byte where the gap has room and deleting backwards
    right after gives back the line and the cursor. *)
Theorem insert_then_delete_backwards (b : buffer) (ch : Z) (h : heap) :
  valid b → gap b < post b →
  ∃ b1 b2, buffer_insertch b ch h = Some (true, b1, h)
           ∧ buffer_delete_backwards b1 = Some b2
           ∧ valid b2
           ∧ line b2 = line b
           ∧ cursor b2 = cursor b.
Proof.
  intros Hv Hroom. pose proof (valid_cursor_bounds b Hv) as Hcb.
  destruct (buffer_insertch_room b ch h Hv Hroom)
    as (b1 & Hins & Hv1 & _ & _ & Hc1 & Hl1).
  destruct (buffer_delete_backwards_valid b1 Hv1)
    as (b2 & Hdel & Hv2 & _ & Hc2 & Hl2).
  exists b1, b2. split_and!; try done.
  - rewrite Hl2, Hl1, Hc1.
    replace (Z.to_nat (cursor b + 1)) with (S (Z.to_nat (cursor b))) by lia.
    simpl. unfold len in Hcb.
    assert (Hn : length (take (Z.to_nat (cursor b)) (line b))
                 = Z.to_nat (cursor b)) by (rewrite length_take; lia).
    rewrite take_app_length' by done.
    rewrite drop_app_ge by lia. rewrite Hn.
    replace (S (Z.to_nat (cursor b)) - Z.to_nat (cursor b))%nat with 1%nat
      by lia.
    simpl. rewrite drop_0. apply take_drop.
  - rewrite Hc2, Hc1. lia.
Qed.

Lemma insert_then_delete_backwards_witness :
  ∃ b1 b2, buffer_insertch hi_left 120 [] = Some (true, b1, [])
           ∧ buffer_delete_backwards b1 = Some b2
           ∧ line b2 = [104; 105]
           ∧ cursor b2 = 1.
Proof.
  destruct (insert_then_delete_backwards hi_left 120 [])
    as (b1 & b2 & Hins & Hdel & _ & Hl & Hc);
    [valid_by_computation|vm_compute; reflexivity|].
  exists b1, b2. split; [exact Hins|]. split; [exact Hdel|].
  split; [exact Hl|exact Hc].
Defined.

(** X11.  The keys arrow-down and Ctrl-E put the cursor of a well-formed
    buffer at the end of the line whatever offset was pending; they keep
    the buffer well-formed and move no byte. *)
Theorem move_to_end_reaches_end (b : buffer) (k : Z) (h : heap) :
  valid b → k = KEY_DOWN ∨ k = CTRL_KEY 101 →
  ∃ b', bread_line_switch b k h = Some (true, b', h)
        ∧ valid b'
        ∧ mem b' = mem b
        ∧ line b' = line b
        ∧ cursor b' = len (line b).
Proof.
  intros Hv Hk.
  destruct (move_to_end_cursor b k h Hv Hk) as (b' & Hsw & Hv' & Hl & Hc).
  exists b'. split_and!; try done.
  destruct Hk as [-> | ->]; by injection Hsw as <-.
Qed.

Lemma move_to_end_reaches_end_witness :
  ∃ b', bread_line_switch hi_left KEY_DOWN [] = Some (true, b', [])
        ∧ cursor b' = 2.
Proof.
  destruct (move_to_end_reaches_end hi_left KEY_DOWN [])
    as (b' & Hsw & _ & _ & _ & Hc); [valid_by_computation|by left|].
  exists b'. split; [exact Hsw|exact Hc].
Defined.

(** X12.  The keys arrow-up and Ctrl-A put the cursor of a well-formed
    buffer at the negated pending offset and move no byte: with no offset
    pending the cursor is at the start of the line and the buffer stays
    well-formed. *)
Theorem move_to_start_negates_offset (b : buffer) (k : Z) (h : heap) :
  valid b → k = KEY_UP ∨ k = CTRL_KEY 97 →
  ∃ b', bread_line_switch b k h = Some (true, b', h)
        ∧ mem b' = mem b
        ∧ line b' = line b
        ∧ cursor b' = - relpos b
        ∧ (relpos b = 0 → valid b' ∧ cursor b' = 0).
Proof.
  intros Hv Hk.
  destruct (move_to_start_cursor b k h Hv Hk) as (b' & Hsw & Hl & Hc & Hv').
  exists b'. split_and!; try done.
  - destruct Hk as [-> | ->]; by injection Hsw as <-.
  - intros H0. split; [by apply Hv'|lia].
Qed.

Lemma move_to_start_negates_offset_witness :
  ∃ b', bread_line_switch hi_left KEY_UP [] = Some (true, b', [])
        ∧ cursor b' = 1.
Proof.
  destruct (move_to_start_negates_offset hi_left KEY_UP [])
    as (b' & Hsw & _ & _ & Hc & _); [valid_by_computation|by left|].
  exists b'. split; [exact Hsw|exact Hc].
Defined.

(** X13.  The key Ctrl-U empties the line without touching the block, its
    size or the pending offset; with no offset pending the buffer stays
    well-formed, with the cursor at 0. *)
Theorem delete_all_empties_line (b : buffer) (h : heap) :
  end_ b = len (mem b) →
  ∃ b', bread_line_switch b (CTRL_KEY 117) h = Some (true, b', h)
        ∧ line b' = []
        ∧ mem b' = mem b
        ∧ end_ b' = end_ b
        ∧ relpos b' = relpos b
        ∧ (valid b → relpos b = 0 → valid b' ∧ cursor b' = 0).
Proof.
  intros He. eexists. split; [reflexivity|]. simpl.
  split_and!; try done.
  - unfold line, pre_bytes, post_bytes, start. simpl.
    apply drop_ge. unfold len in He. lia.
  - intros [Hg Hgp Hp _ Hi Hlo Hhi] H0. unfold cursor, start. simpl.
    split; [constructor; simpl; lia|lia].
Qed.

Lemma delete_all_empties_line_witness :
  ∃ b', bread_line_switch full (CTRL_KEY 117) [] = Some (true, b', [])
        ∧ line b' = []
        ∧ valid b'.
Proof.
  destruct (delete_all_empties_line full []) as (b' & Hsw & Hl & _ & _ & _ & Hv);
    [reflexivity|].
  exists b'. split; [exact Hsw|]. split; [exact Hl|].
  apply Hv; [valid_by_computation|reflexivity].
Defined.

(** ** The key decoder *)

Lemma nth_is_byte (l : list Z) (i : nat) :
  Forall is_byte l → is_byte (nth i l 0).
Proof.
  intros Hl. revert i. induction Hl as [|c l Hc _ IH]; intros [|i]; simpl;
    try done; unfold is_byte; lia.
Qed.

Lemma char_to_int_eq_ascii (P : platform) (c k : Z) :
  is_byte c → 0 ≤ k < 128 → (char_to_int P c =? k) = (c =? k).
Proof.
  intros Hc Hk. unfold is_byte, char_to_int in *.
  destruct (char_is_signed P), (Z.leb_spec 128 c); simpl;
    destruct (Z.eqb_spec c k), (Z.eqb_spec (c - 256) k); lia.
Qed.

(** X14.  A read of three bytes or more that starts with ESC and [[] is
    decoded by its third byte alone: [A], [B], [C] and [D] give the four
    arrow keys, any other byte gives [KEY_NOKEY]; bytes behind the third are
    not looked at. *)
Theorem getkey_escape (P : platform) (r : read_call) (x : Z) (rest : list Z) :
  result r = ReadBytes (27 :: 91 :: x :: rest) → is_byte x →
  getkey P r
  = (if x =? 65 then KEY_UP
     else if x =? 66 then KEY_DOWN
     else if x =? 67 then KEY_RIGHT
     else if x =? 68 then KEY_LEFT
     else KEY_NOKEY).
Proof.
  intros Hr Hx. unfold getkey. rewrite Hr. simpl.
  rewrite !(char_to_int_ascii P 27), !(char_to_int_ascii P 91) by lia.
  simpl.
  by rewrite !char_to_int_eq_ascii by (done || lia).
Qed.

Lemma getkey_escape_witness :
  getkey linux (burst [27; 91; 68; 120]) = KEY_LEFT
  ∧ getkey linux (burst [27; 91; 90]) = KEY_NOKEY.
Proof.
  split.
  - apply (getkey_escape linux (burst [27; 91; 68; 120]) 68 [120] eq_refl).
    unfold is_byte. lia.
  - apply (getkey_escape linux (burst [27; 91; 90]) 90 [] eq_refl).
    unfold is_byte. lia.
Defined.

(** X15.  [getkey] returns a code above the byte values only for a failed
    read and for a full escape sequence: every other read gives the value
    of a [char], and no read gives [KEY_LOWEST]. *)
Theorem getkey_codes (P : platform) (r : read_call) :
  bytes_only r →
  (-128 ≤ getkey P r < 256
   ∧ ∃ bs, result r = ReadBytes bs)
  ∨ (257 ≤ getkey P r ≤ 261
     ∧ (result r = ReadError
        ∨ ∃ x rest, result r = ReadBytes (27 :: 91 :: x :: rest))).
Proof.
  intros [Hc Hbs]. unfold getkey.
  destruct (result r) as [|bs] eqn:Hr.
  { right. split; [done|by left]. }
  set (got := take 3 bs).
  set (c := got ++ drop (length got) (c_before r)).
  assert (Hbyte : ∀ i, -128 ≤ char_to_int P (nth i c 0) < 256).
  { intros i. apply char_to_int_range, nth_is_byte, Forall_app.
    split; [by apply Forall_take|by apply Forall_drop]. }
  destruct (len got <? 3) eqn:Hn.
  { left. split; [apply Hbyte|by eexists]. }
  destruct (_ && _) eqn:Hesc; simpl; last first.
  { left. split; [apply Hbyte|by eexists]. }
  right.
  assert (Hshape : ∃ x rest, bs = 27 :: 91 :: x :: rest).
  { apply andb_true_iff in Hesc as [H0 H1].
    apply Z.ltb_ge in Hn. subst c got. unfold len in Hn.
    destruct bs as [|a0 [|a1 [|a2 rest]]]; simpl in Hn; try lia.
    simpl in H0, H1.
    inversion Hbs as [|? ? Ha0 Hbs']; subst.
    inversion Hbs' as [|? ? Ha1 _]; subst.
    rewrite char_to_int_eq_ascii in H0, H1 by (done || lia).
    apply Z.eqb_eq in H0 as ->. apply Z.eqb_eq in H1 as ->.
    by exists a2, rest. }
  split.
  - unfold KEY_UP, KEY_DOWN, KEY_RIGHT, KEY_LEFT, KEY_NOKEY.
    repeat destruct (_ =? _); lia.
  - right. destruct Hshape as (x & rest & ->). by exists x, rest.
Qed.

Lemma getkey_codes_witness :
  -128 ≤ getkey linux (burst [200; 91; 65]) < 256.
Proof.
  destruct (getkey_codes linux (burst [200; 91; 65])) as [[Hk _]|[Hk _]].
  - split; repeat constructor; unfold is_byte; lia.
  - exact Hk.
  - vm_compute in Hk. destruct Hk as [Hk _]. exfalso. by apply Hk.
Defined.

(** X16.  A read of three bytes or more that does not start with ESC and
    [[] is decoded to its first byte; the bytes behind it are dropped, and
    the loop goes on as if the first byte alone had been typed. *)
Theorem getkey_drops_tail (P : platform) (r : read_call) (a a1 a2 : Z)
    (rest : list Z) :
  result r = ReadBytes (a :: a1 :: a2 :: rest) →
  is_byte a → is_byte a1 → ¬ (a = 27 ∧ a1 = 91) →
  getkey P r = char_to_int P a
  ∧ ∀ b input h,
      bread_line_loop P b (r :: input) h
      = bread_line_loop P b (typed a :: input) h.
Proof.
  intros Hr Ha Ha1 Hne.
  assert (Hk : getkey P r = char_to_int P a).
  { unfold getkey. rewrite Hr. simpl.
    rewrite !char_to_int_eq_ascii by (done || lia).
    destruct (Z.eqb_spec a 27), (Z.eqb_spec a1 91); simpl; try done.
    exfalso. by apply Hne. }
  split; [done|].
  intros b input h. simpl. by rewrite Hk, getkey_typed.
Qed.

Lemma getkey_drops_tail_witness :
  getkey linux (burst [97; 98; 99]) = 97
  ∧ bread_line_loop linux (empty_buffer 64) [burst [97; 98; 99]] []
    = bread_line_loop linux (empty_buffer 64) [typed 97] [].
Proof.
  destruct (getkey_drops_tail linux (burst [97; 98; 99]) 97 98 99 [] eq_refl)
    as [Hk Hloop]; [unfold is_byte; lia..|intros [H _]; discriminate H|].
  split; [exact Hk|apply Hloop].
Defined.

(** X17.  Reads that decode to [KEY_NOKEY] (failed reads and unknown escape
    sequences) leave no trace in the session: the loop ends as it does on
    the input without them. *)
Theorem no_key_reads_are_skipped (P : platform) (input : list read_call) :
  ∀ (b : buffer) (h : heap),
    bread_line_loop P b (filter (is_key P) input) h
    = bread_line_loop P b input h.
Proof.
  induction input as [|r input IH]; intros b h; [done|].
  destruct (decide (is_key P r)) as [Hkey|Hno].
  - rewrite filter_cons_True by done. simpl.
    destruct (_ =? 10); [done|].
    destruct (bread_line_switch _ _ _) as [[[[] b1] h1]|]; try done.
  - rewrite filter_cons_False by done. rewrite IH.
    unfold is_key in Hno. apply dec_stable in Hno.
    simpl. by rewrite Hno.
Qed.

(** ** The terminal *)

(** X18.  The raw mode that [setup_terminal] derives sets no flag that was
    clear: in [c_lflag] it clears the bits of [ECHO] and [ICANON] and keeps
    every other bit, and in [c_oflag] it keeps the bits of [OPOST] and clears
    every other bit.  Deriving it twice changes nothing more. *)
Theorem raw_of_bits (P : platform) (old : termios) :
  (∀ n, 0 ≤ n →
        Z.testbit (c_lflag (raw_of P old)) n
        = Z.testbit (c_lflag old) n
          && negb (Z.testbit (ECHO P) n || Z.testbit (ICANON P) n))
  ∧ (∀ n, Z.testbit (c_oflag (raw_of P old)) n
          = Z.testbit (c_oflag old) n && Z.testbit (OPOST P) n)
  ∧ raw_of P (raw_of P old) = raw_of P old.
Proof.
  split_and!.
  - intros n Hn. simpl.
    by rewrite Z.land_spec, Z.lnot_spec, Z.lor_spec by done.
  - intros n. simpl. by rewrite Z.land_spec.
  - unfold raw_of. simpl. f_equal.
    + rewrite <- Z.land_assoc. f_equal. apply Z.land_diag.
    + rewrite <- Z.land_assoc. f_equal. apply Z.land_diag.
Qed.

Lemma raw_of_bits_witness :
  Z.testbit (c_lflag (raw_of linux cooked)) 3 = false
  ∧ Z.testbit (c_lflag (raw_of linux cooked)) 1 = false
  ∧ Z.testbit (c_lflag (raw_of linux cooked)) 0 = true.
Proof.
  destruct (raw_of_bits linux cooked) as (Hl & _ & _).
  split; [|split].
  - refine (eq_trans (Hl 3 _) _); [vm_compute; congruence|reflexivity].
  - refine (eq_trans (Hl 1 _) _); [vm_compute; congruence|reflexivity].
  - refine (eq_trans (Hl 0 _) _); [vm_compute; congruence|reflexivity].
Defined.

(** X19.  Where the terminal cannot be set up, [bread_line] returns [NULL]
    whatever the input is, without an allocation and without a call of
    [free]; where [tcgetattr] fails the world is untouched, and where the
    first [tcsetattr] fails the attributes of the terminal are. *)
Theorem bread_line_without_terminal (P : platform) (input : list read_call)
    (w : world) :
  tcgetattr w = None ∨ hd true (tcset_script w) = false →
  ∃ w', bread_line P input w = Returned None w'
        ∧ tty w' = tty w
        ∧ hp w' = hp w
        ∧ frees w' = frees w
        ∧ (tcgetattr w = None → w' = w).
Proof.
  intros Hfail. unfold bread_line, setup_terminal, tcsetattr.
  destruct (tcgetattr w) as [old|] eqn:Hget.
  - destruct Hfail as [?|Hset]; [done|]. rewrite Hset.
    eexists. by split_and!.
  - exists w. by split_and!.
Qed.

Lemma bread_line_without_terminal_witness :
  ∃ w', bread_line linux [typed 104; typed 10]
          {| tty := None; tcset_script := []; tcset_log := []; hp := [];
             frees := 0 |}
        = Returned None w'
        ∧ hp w' = [].
Proof.
  destruct (bread_line_without_terminal linux [typed 104; typed 10]
              {| tty := None; tcset_script := []; tcset_log := []; hp := [];
                 frees := 0 |}) as (w' & Hret & _ & Hhp & _);
    [left; reflexivity|].
  exists w'. split; [exact Hret|exact Hhp].
Defined.

(** X20.  Behind a successful [setup_terminal], a call of [bread_line] that
    returns has called [restore_terminal] exactly when it returns a line:
    once, with the saved attributes; a return of [NULL] leaves the terminal
    in raw mode. *)
Theorem restore_only_with_a_line (P : platform) (input : list read_call)
    (w w' : world) (old : termios) (l : option (list Z)) :
  tcgetattr w = Some old → hd true (tcset_script w) = true →
  bread_line P input w = Returned l w' →
  restores w w' = match l with Some _ => [old] | None => [] end
  ∧ (l = None → tty w' = Some (raw_of P old)).
Proof. apply bread_line_restores. Qed.

Lemma restore_only_with_a_line_witness :
  ∃ w', bread_line linux [typed 104; typed 10] calm = Returned (Some [104]) w'
        ∧ restores calm w' = [cooked].
Proof.
  eexists. split; [vm_compute; reflexivity|].
  refine (proj1 (restore_only_with_a_line linux [typed 104; typed 10] calm _
                   cooked (Some [104]) eq_refl eq_refl _)).
  vm_compute. reflexivity.
Defined.

(** X21.  A session that returns a line and whose two calls of [tcsetattr]
    both succeed leaves the terminal with the attributes it had, after
    exactly those two calls: raw mode first, the saved attributes last. *)
Theorem terminal_round_trip (P : platform) (input : list read_call)
    (w w' : world) (old : termios) (l : list Z) :
  tcgetattr w = Some old →
  hd true (tcset_script w) = true → hd true (tl (tcset_script w)) = true →
  bread_line P input w = Returned (Some l) w' →
  tty w' = Some old
  ∧ tcset_log w' = tcset_log w ++ [raw_of P old; old].
Proof.
  intros Hget Hset Hres. unfold bread_line, setup_terminal.
  rewrite Hget. unfold tcsetattr at 1. rewrite Hset.
  destruct (buffer_init _ _) as [[b0|] h2]; [|done].
  destruct (bread_line_loop _ _ _ _) as [|b h3|b h3|b h3]; try done.
  destruct (malloc _ _) as [[m|] h4]; [|done].
  destruct (copy_line b) as [lb|]; [|done].
  unfold restore_terminal, tcsetattr. simpl. rewrite Hres.
  intros [= <- <-]. simpl. by rewrite <- app_assoc.
Qed.

Lemma terminal_round_trip_witness :
  ∃ w', bread_line linux [typed 104; typed 10] calm = Returned (Some [104]) w'
        ∧ tty w' = Some cooked.
Proof.
  eexists. split; [vm_compute; reflexivity|].
  refine (proj1 (terminal_round_trip linux [typed 104; typed 10] calm _
                   cooked [104] eq_refl eq_refl eq_refl _)).
  vm_compute. reflexivity.
Defined.



(** ** The returned line *)

Lemma copy_line_of_valid (b : buffer) :
  valid b → copy_line b = Some (line b) ∧ size b = len (line b).
Proof.
  intros Hv. pose proof (length_line b Hv) as Hlen.
  destruct Hv as [Hg Hgp Hp He Hi Hlo Hhi].
  assert (H64 : 2 ^ 31 < 2 ^ 62) by done.
  assert (H64' : 2 ^ 62 + 2 ^ 62 < 2 ^ 64) by done.
  assert (Hpre : presize b = gap b)
    by (unfold presize, start; rewrite to_size_small; lia).
  assert (Hpost : postsize b = end_ b - post b)
    by (unfold postsize; rewrite to_size_small; lia).
  assert (Hsize : size b = gap b + (end_ b - post b))
    by (unfold size; rewrite Hpre, Hpost, to_size_small; lia).
  split; [|lia].
  unfold copy_line. rewrite Hsize, Hpre, Hpost.
  rewrite to_size_small by lia.
  rewrite bool_decide_true by lia.
  unfold line, pre_bytes, post_bytes. do 2 f_equal.
  apply take_ge. rewrite length_drop. unfold len in He. lia.
Qed.

(** X23.  For a well-formed buffer the tail of [bread_line] sizes the
    result for the length of the line and copies exactly the two runs into
    it, the one in front of the gap first. *)
Theorem copy_line_is_line (b : buffer) :
  valid b →
  size b = len (pre_bytes b) + len (post_bytes b)
  ∧ copy_line b = Some (pre_bytes b ++ post_bytes b).
Proof.
  intros Hv. destruct (copy_line_of_valid b Hv) as [Hcopy Hsize].
  split; [|done]. rewrite Hsize. unfold line, len.
  rewrite length_app. lia.
Qed.

Lemma copy_line_is_line_witness :
  size hi_left = 2 ∧ copy_line hi_left = Some [104; 105].
Proof.
  destruct (copy_line_is_line hi_left) as [Hsize Hcopy];
    [valid_by_computation|].
  split; [exact Hsize|exact Hcopy].
Defined.

(** ** Sessions against the string model *)




(** ** The prompt *)

Lemma to_size_bounds (x : Z) : 0 ≤ x → 0 ≤ to_size x ≤ x.
Proof.
  intros Hx. unfold to_size. split.
  - apply Z.mod_pos_bound. done.
  - apply Z.mod_le; [done|]. done.
Qed.

Lemma count_prompt_app (a t : list Z) :
  ∀ (counting : bool) (n : Z),
    Forall visible a → 0 ≤ n → (counting = true → n + len a < 2 ^ 64) →
    count_prompt counting n (a ++ t)
    = count_prompt counting (if counting then n + len a else n) t.
Proof.
  induction a as [|c a IH]; intros counting n Ha Hn Hfit.
  - simpl. unfold len. simpl. destruct counting; [f_equal; lia|done].
  - inversion Ha as [|? ? (Hc & H0 & H1 & H2) Ha']; subst.
    unfold len in *. simpl length in *. simpl.
    destruct (Z.eqb_spec c 0), (Z.eqb_spec c 1), (Z.eqb_spec c 2); try done.
    destruct counting.
    + rewrite to_size_small by lia.
      rewrite IH by (done || lia). f_equal. lia.
    + by rewrite IH.
Qed.

Lemma count_prompt_visible (a : list Z) (counting : bool) (n : Z) :
  Forall visible a → 0 ≤ n → (counting = true → n + len a < 2 ^ 64) →
  count_prompt counting n a = (if counting then n + len a else n).
Proof.
  intros Ha Hn Hfit.
  by rewrite <- (app_nil_r a) at 1; rewrite count_prompt_app.
Qed.

(** X26.  [prompt_len] counts the bytes of the prompt outside the spans
    that a byte 1 opens and a byte 2 closes: a prompt free of the bytes 0,
    1 and 2 counts in full, and such a prompt with one marked span in it
    counts without the span and its two markers. *)
Theorem prompt_len_skips_marked_span (a inv b : list Z) :
  Forall visible a → Forall visible inv → Forall visible b →
  len a + len b < 2 ^ 64 →
  prompt_len (a ++ b) = len a + len b
  ∧ prompt_len (a ++ 1 :: inv ++ 2 :: b) = len a + len b.
Proof.
  intros Ha Hinv Hb Hfit.
  assert (H0a : 0 ≤ len a) by apply Zle_0_nat.
  assert (H0b : 0 ≤ len b) by apply Zle_0_nat.
  unfold prompt_len. split.
  - rewrite count_prompt_app by (done || lia).
    rewrite count_prompt_visible by (done || lia). lia.
  - rewrite count_prompt_app by (done || lia).
    simpl.
    rewrite count_prompt_app by (done || lia).
    simpl.
    rewrite count_prompt_visible by (done || lia). lia.
Qed.

Lemma prompt_len_skips_marked_span_witness :
  prompt_len ([36; 32] ++ 1 :: [27; 91; 109] ++ 2 :: [62]) = 3.
Proof.
  refine (proj2 (prompt_len_skips_marked_span [36; 32] [27; 91; 109] [62]
                   _ _ _ _));
    [repeat constructor; unfold is_byte; lia..|vm_compute; reflexivity].
Defined.

Lemma count_prompt_bounds (s : list Z) :
  ∀ (counting : bool) (n : Z),
    0 ≤ n →
    count_prompt counting n s = count_prompt counting n (c_string s)
    ∧ 0 ≤ count_prompt counting n s ≤ n + len (c_string s).
Proof.
  induction s as [|c s IH]; intros counting n Hn.
  - simpl. unfold len. simpl. lia.
  - simpl. destruct (Z.eqb_spec c 0) as [->|Hc0].
    { simpl. unfold len. simpl. lia. }
    unfold len in *. simpl. rewrite (proj2 (Z.eqb_neq c 0) Hc0).
    destruct (Z.eqb_spec c 1); [|destruct (Z.eqb_spec c 2)].
    + destruct (IH false n Hn) as (-> & ?). split; [done|lia].
    + destruct (IH true n Hn) as (-> & ?). split; [done|lia].
    + destruct counting.
      * pose proof (to_size_bounds (n + 1) ltac:(lia)) as Hb.
        destruct (IH true (to_size (n + 1)) ltac:(lia)) as (-> & ?).
        split; [done|lia].
      * destruct (IH false n Hn) as (-> & ?). split; [done|lia].
Qed.

(** X27.  [prompt_len] reads the prompt as a C string: what lies behind the
    first zero byte does not count, and the count is at most the length of
    the string. *)
Theorem prompt_len_of_c_string (prompt : list Z) :
  prompt_len prompt = prompt_len (c_string prompt)
  ∧ 0 ≤ prompt_len prompt ≤ len (c_string prompt).
Proof.
  destruct (count_prompt_bounds prompt true 0) as [Heq Hb]; [done|].
  split; [done|]. unfold prompt_len. lia.
Qed.

(** ** The redraw *)


Lemma length_c_string (l : list Z) : (length (c_string l) ≤ length l)%nat.
Proof.
  induction l as [|c l IH]; simpl; [done|].
  destruct (c =? 0); simpl; lia.
Qed.

Lemma print_s_in_block (m : list Z) (ptr prec : Z) :
  0 ≤ ptr → 0 ≤ prec → ptr + prec ≤ len m →
  print_s m ptr prec
  = Some (c_string (take (Z.to_nat prec) (drop (Z.to_nat ptr) m))).
Proof.
  intros Hptr Hprec Hin. unfold print_s, len in *.
  rewrite bool_decide_true by lia.
  destruct (Z.leb_spec 0 prec); [|lia].
  rewrite bool_decide_false; [done|].
  intros [_ [?|Hover]]; [lia|]. rewrite length_drop in Hover. lia.
Qed.

Lemma render_of_valid (plen : Z) (b : buffer) :
  valid b →
  render plen b
  = Some (draw plen (pre_bytes b) (post_bytes b) (len (line b) - cursor b)).
Proof.
  intros Hv. pose proof (length_line b Hv) as Hlen.
  destruct (copy_line_of_valid b Hv) as [_ Hsize].
  destruct Hv as [Hg Hgp Hp He Hi Hlo Hhi].
  assert (H64 : 2 ^ 31 < 2 ^ 63) by done.
  assert (H64' : 2 ^ 63 + 2 ^ 63 = 2 ^ 64) by done.
  assert (Hpost : postsize b = end_ b - post b)
    by (unfold postsize; rewrite to_size_small; lia).
  unfold render, start, cursor in *.
  rewrite Hpost, !to_int_small by lia.
  rewrite !print_s_in_block by lia. simpl.
  rewrite to_size_small by lia.
  unfold draw, pre_bytes, post_bytes.
  replace (gap b - 0) with (gap b) by lia.
  change (Z.to_nat 0) with 0%nat. rewrite drop_0.
  rewrite (take_ge (drop _ _)) by (rewrite length_drop; unfold len in He; lia).
  replace (len (line b) - (gap b + relpos b))
    with (end_ b - post b - relpos b) by lia.
  destruct (Z.ltb_spec 0 (end_ b - post b - relpos b)).
  - by rewrite bool_decide_true.
  - by rewrite bool_decide_false by lia.
Qed.

(** X28.  For a well-formed buffer the redraw is defined and writes, in
    this order: carriage return, cursor forward by the width of the prompt,
    erase to the end of the line, the run in front of the gap and the run
    behind it, each up to its first zero byte, and, unless the cursor is at
    the end of the line, cursor backward by the distance from the end of the
    line to the cursor. *)
Theorem render_valid (plen : Z) (b : buffer) :
  valid b →
  render plen b
  = Some (draw plen (pre_bytes b) (post_bytes b) (len (line b) - cursor b)).
Proof. apply render_of_valid. Qed.

Lemma render_valid_witness :
  render 2 hi_left
  = Some [13; 27; 91; 50; 67; 27; 91; 75; 104; 105; 27; 91; 49; 68].
Proof.
  refine (eq_trans (render_valid 2 hi_left _) _);
    [valid_by_computation|vm_compute; reflexivity].
Defined.




(** ** Whole sessions *)







